(** * client.py: a TCP port mapper, embedded and verified

    The program has three functions.  [pipe] copies bytes from one socket to
    another until the stream ends or a call fails, then closes both sockets.
    [start_forwarder] binds a listening socket and, for every client it
    accepts, dials the remote server and starts two [pipe] threads.  [main]
    reads the remote address and the mappings from the terminal and starts one
    [start_forwarder] thread per mapping.

    The embedding is shallow: every function of the source is a Rocq function
    in a small monad that threads a [world] (what the operating system and the
    operator will answer, and the trace of the calls made so far) and
    propagates Python exceptions. *)

From Stdlib Require Import List String Ascii ZArith Lia Bool Arith.
From Stdlib Require Import DecimalString.
From Stdlib.Strings Require Import Byte.
Import ListNotations.

Local Open Scope string_scope.
Local Open Scope Z_scope.

Set Implicit Arguments.

(** ** Python values used by the program *)

(** [bytes] objects, as returned by [recv] and passed to [sendall]. *)
Definition bytes := list byte.

(** An [(host, port)] address pair. *)
Definition addr := (string * Z)%type.

(** One entry of [mappings]: (local_ip, local_port, remote_ip, remote_port). *)
Definition mapping := (string * Z * string * Z)%type.

(** Socket objects are identified by a handle number. *)
Definition sock := nat.

(** The exceptions that can travel through this program. *)
Inductive exn :=
| OSError (msg : string)        (* raised by the socket module; [msg] is str(e) *)
| ValueError (msg : string)     (* raised by int() *)
| OverflowError (msg : string)  (* raised by bind() for a port outside 0..65535 *)
| EOFError                      (* raised by input() at end of input *)
| KeyboardInterrupt.            (* delivered to the main thread *)

(** [except Exception] catches every class above but [KeyboardInterrupt],
    which derives from [BaseException] only; a bare [except:] catches all. *)
Definition is_Exception (e : exn) : bool :=
  match e with KeyboardInterrupt => false | _ => true end.

Definition is_ValueError (e : exn) : bool :=
  match e with ValueError _ => true | _ => false end.

Definition is_KeyboardInterrupt (e : exn) : bool :=
  match e with KeyboardInterrupt => true | _ => false end.

Definition any_exception (e : exn) : bool := true.

Definition BUFFER_SIZE : Z := 65535.

(** ** Strings: str.strip, str.split, int, str *)

Module PyStr.

(** The line feed character. *)
Definition nl : string := String (ascii_of_nat 10) EmptyString.

(** [str.isspace] on the ASCII range: tab to carriage return, the four
    separators 28..31 and the space.  Strings are modelled as byte strings,
    so the whitespace characters of Unicode beyond ASCII are not recognised. *)
Definition is_space (c : ascii) : bool :=
  let n := N_of_ascii c in
  ((9 <=? n) && (n <=? 13) || (28 <=? n) && (n <=? 32))%N.

Fixpoint lstrip (s : string) : string :=
  match s with
  | EmptyString => EmptyString
  | String c s' => if is_space c then lstrip s' else s
  end.

Definition is_empty (s : string) : bool :=
  match s with EmptyString => true | _ => false end.

Fixpoint rstrip (s : string) : string :=
  match s with
  | EmptyString => EmptyString
  | String c s' =>
      let r := rstrip s' in
      if is_space c && is_empty r then EmptyString else String c r
  end.

(** [s.strip()] *)
Definition strip (s : string) : string := rstrip (lstrip s).

(** [s.split()] with no separator: the maximal runs of non-whitespace
    characters; [cur] is the token being read. *)
Fixpoint split_from (cur : string) (s : string) : list string :=
  match s with
  | EmptyString => if is_empty cur then [] else [cur]
  | String c s' =>
      if is_space c
      then (if is_empty cur then split_from EmptyString s'
            else cur :: split_from EmptyString s')
      else split_from (cur ++ String c EmptyString) s'
  end.

Definition split (s : string) : list string := split_from EmptyString s.

(** Decimal digits of int(): a digit, or an underscore between two digits. *)
Definition digit_of (c : ascii) : option Z :=
  let n := N_of_ascii c in
  if ((48 <=? n) && (n <=? 57))%N then Some (Z.of_N n - 48) else None.

Definition is_underscore (c : ascii) : bool := (N_of_ascii c =? 95)%N.

(** [digits acc count after_digit s]: reads the digit string [s];
    [after_digit] tells whether the previous character was a digit (an
    underscore is legal only there and must be followed by a digit); [count]
    is the number of digits read. *)
Fixpoint digits (acc : Z) (count : Z) (after_digit : bool) (s : string)
  : option (Z * Z) :=
  match s with
  | EmptyString => if after_digit then Some (acc, count) else None
  | String c s' =>
      match digit_of c with
      | Some d => digits (10 * acc + d) (count + 1) true s'
      | None =>
          if is_underscore c && after_digit
          then digits acc count false s'
          else None
      end
  end.

(** sys.int_max_str_digits, the default limit of int() on decimal strings. *)
Definition int_max_str_digits : Z := 4300.

Definition unsigned (s : string) : option Z :=
  match digits 0 0 false s with
  | Some (v, count) => if count <=? int_max_str_digits then Some v else None
  | None => None
  end.

(** [int(s)] for a str argument, base 10: surrounding whitespace, an optional
    sign, then digits.  [None] stands for ValueError. *)
Definition int (s : string) : option Z :=
  match strip s with
  | String "+" s' => unsigned s'
  | String "-" s' => option_map Z.opp (unsigned s')
  | s' => unsigned s'
  end.

(** [str(n)] for an int. *)
Definition str (n : Z) : string := NilZero.string_of_int (Z.to_int n).

(** [str(a)] for an address pair as accept() returns it, ('host', port).
    The host is a numeric address, so repr adds the quotes and escapes
    nothing. *)
Definition str_addr (a : addr) : string :=
  "('" ++ fst a ++ "', " ++ str (snd a) ++ ")".

(** [str(e)] for an exception: its message. *)
Definition str_exn (e : exn) : string :=
  match e with
  | OSError msg | ValueError msg | OverflowError msg => msg
  | EOFError | KeyboardInterrupt => EmptyString
  end.

End PyStr.

(** ** The world: what the environment answers, and the calls made

    A thread sees its environment through the calls it makes.  The world
    holds, for every kind of call, the answers the environment is going to
    give, in call order, and the [trace] of calls already made, oldest first.
    When a queue of answers is used up the call takes its ordinary course: a
    socket call succeeds, recv() finds the stream ended, input() finds the end
    of the input, accept() and Event.wait() block for good. *)

Inductive family := AF_INET | AF_INET6.
Inductive socktype := SOCK_STREAM | SOCK_DGRAM.
Inductive level := SOL_SOCKET | IPPROTO_TCP.
Inductive sockopt := SO_REUSEADDR | SO_KEEPALIVE.

(** The calls into the socket module, with their arguments. *)
Inductive call :=
| Socket (f : family) (t : socktype)
| Setsockopt (s : sock) (l : level) (o : sockopt) (v : Z)
| Bind (s : sock) (a : addr)
| Listen (s : sock) (backlog : Z)
| Accept (s : sock)
| CreateConnection (a : addr) (timeout : Z)
| Recv (s : sock) (bufsize : Z)
| Sendall (s : sock) (data : bytes)
| Close (s : sock).

(** What a call gave back. *)
Inductive returned :=
| Raised (e : exn)
| RNone
| RSock (s : sock)
| RConn (s : sock) (peer : addr)
| RBytes (data : bytes).

(** The threads the program starts. *)
Inductive task :=
| Pipe (src dst : sock)
| Forwarder (local_ip : string) (local_port : Z)
            (remote_ip : string) (remote_port : Z).

Inductive event :=
| Sys (c : call) (r : returned)          (* a socket call and its outcome *)
| Print (line : string)                  (* print(line) *)
| Input (prompt : string) (line : option string)  (* input(prompt) *)
| Start (t : task)                       (* Thread(target=..., daemon=True).start() *)
| Wait (timeout : Z)                     (* Event().wait(timeout) elapsed *)
| Uncaught (e : exn).                    (* the interpreter's report, on stderr, of
                                            an exception that ended a thread *)

(** The socket calls that either succeed or raise OSError, nothing more. *)
Inductive op :=
| OpSocket | OpSetsockopt | OpBind | OpListen | OpConnect | OpSendall | OpClose.

Definition op_code (o : op) : nat :=
  match o with
  | OpSocket => 0 | OpSetsockopt => 1 | OpBind => 2 | OpListen => 3
  | OpConnect => 4 | OpSendall => 5 | OpClose => 6
  end%nat.

Definition op_eqb (a b : op) : bool := Nat.eqb (op_code a) (op_code b).

(** What accept() finds: a client, or a failure. *)
Inductive knock :=
| Client (peer : addr)
| AcceptFails (reason : string).

(** What recv() finds on the stream: bytes that have arrived, or a failure. *)
Inductive delivery :=
| Segment (data : bytes)
| RecvFails (reason : string).

Record world := World {
  stdin : list string;                  (* the lines the operator types *)
  signals : list bool;                  (* per wait: true = Ctrl+C arrives *)
  faults : op -> list (option string);  (* [Some reason]: the call raises *)
  clients : list knock;                 (* what each accept() finds *)
  incoming : list delivery;             (* what recv() finds *)
  next_handle : sock;                   (* the next fresh socket handle *)
  trace : list event                    (* the calls made, oldest first *)
}.

Definition set_stdin (q : list string) (w : world) : world :=
  World q (signals w) (faults w) (clients w) (incoming w) (next_handle w) (trace w).
Definition set_signals (q : list bool) (w : world) : world :=
  World (stdin w) q (faults w) (clients w) (incoming w) (next_handle w) (trace w).
Definition set_faults (q : op -> list (option string)) (w : world) : world :=
  World (stdin w) (signals w) q (clients w) (incoming w) (next_handle w) (trace w).
Definition set_clients (q : list knock) (w : world) : world :=
  World (stdin w) (signals w) (faults w) q (incoming w) (next_handle w) (trace w).
Definition set_incoming (q : list delivery) (w : world) : world :=
  World (stdin w) (signals w) (faults w) (clients w) q (next_handle w) (trace w).
Definition set_next_handle (n : sock) (w : world) : world :=
  World (stdin w) (signals w) (faults w) (clients w) (incoming w) n (trace w).

(** Append one event to the trace. *)
Definition emit (e : event) (w : world) : world :=
  World (stdin w) (signals w) (faults w) (clients w) (incoming w) (next_handle w)
        (trace w ++ [e]).

(** The answer to the next call of kind [o], removed from its queue. *)
Definition next_fault (o : op) (w : world) : option string * world :=
  match faults w o with
  | [] => (None, w)
  | f :: q =>
      (f, set_faults (fun o' => if op_eqb o' o then q else faults w o') w)
  end.

(** ** The monad of the program: state, exceptions, blocking *)

Inductive res (A : Type) :=
| Ret (a : A)        (* the code ran to its end *)
| Raise (e : exn)    (* an exception is propagating *)
| Blocked            (* a blocking call that the environment never answers *)
| OutOfFuel.         (* a loop was unrolled further than its bound *)

Arguments Ret {A} a.
Arguments Raise {A} e.
Arguments Blocked {A}.
Arguments OutOfFuel {A}.

Definition M (A : Type) := world -> res A * world.

Definition ret {A} (a : A) : M A := fun w => (Ret a, w).

Definition raise {A} (e : exn) : M A := fun w => (Raise e, w).

Definition bind {A B} (m : M A) (k : A -> M B) : M B :=
  fun w =>
    match m w with
    | (Ret a, w') => k a w'
    | (Raise e, w') => (Raise e, w')
    | (Blocked, w') => (Blocked, w')
    | (OutOfFuel, w') => (OutOfFuel, w')
    end.

Declare Scope py_scope.
Delimit Scope py_scope with py.
Notation "x <- m ;; k" := (bind m (fun x => k))
  (at level 100, m at next level, right associativity) : py_scope.
Notation "' p <- m ;; k" := (bind m (fun x => let 'p := x in k))
  (at level 100, p pattern, m at next level, right associativity) : py_scope.
Notation "m ;; k" := (bind m (fun _ => k))
  (at level 100, right associativity) : py_scope.
Local Open Scope py_scope.

(** [try: m except <classes>: h]: [h] runs when [m] raises an exception of a
    class that [catches] accepts. *)
Definition try_except {A} (m : M A) (catches : exn -> bool) (h : exn -> M A)
  : M A :=
  fun w =>
    match m w with
    | (Raise e, w') => if catches e then h e w' else (Raise e, w')
    | r => r
    end.

(** [try: m finally: fin]: [fin] runs when [m] ends, normally or not; what
    [fin] raises replaces the outcome of [m]. *)
Definition try_finally {A} (m : M A) (fin : M unit) : M A :=
  fun w =>
    match m w with
    | (Ret a, w') => (_ <- fin ;; ret a) w'
    | (Raise e, w') => (_ <- fin ;; raise e) w'
    | r => r
    end.

(** How the body of a [while True] ends: at its end or on [continue], or on
    [break]; [S] is the value of the local variables the loop updates. *)
Inductive ctl (S : Type) :=
| Continue (s : S)
| Break (s : S).

Arguments Continue {S} s.
Arguments Break {S} s.

(** [while True: body], unrolled at most [fuel] times. *)
Fixpoint while_true {S} (fuel : nat) (body : S -> M (ctl S)) (s : S) : M S :=
  match fuel with
  | O => fun w => (OutOfFuel, w)
  | Datatypes.S fuel' =>
      fun w =>
        match body s w with
        | (Ret (Continue s'), w') => while_true fuel' body s' w'
        | (Ret (Break s'), w') => (Ret s', w')
        | (Raise e, w') => (Raise e, w')
        | (Blocked, w') => (Blocked, w')
        | (OutOfFuel, w') => (OutOfFuel, w')
        end
  end.

(** A [while True] whose every round uses up part of what the environment
    has to say: [size] of the world bounds the number of rounds. *)
Definition loop {S} (size : world -> nat) (body : S -> M (ctl S)) (s : S)
  : M S :=
  fun w => while_true (Datatypes.S (size w)) body s w.

(** [for x in xs: body x] *)
Fixpoint for_each {A} (xs : list A) (body : A -> M unit) : M unit :=
  match xs with
  | [] => ret tt
  | x :: xs' => body x ;; for_each xs' body
  end.

(** ** The library calls *)

(** [print(line)]; [log] of the source is print with flush=True. *)
Definition print (line : string) : M unit :=
  fun w => (Ret tt, emit (Print line) w).

(** [input(prompt)]: the next line typed, EOFError when there is none. *)
Definition input (prompt : string) : M string :=
  fun w =>
    match stdin w with
    | [] => (Raise EOFError, emit (Input prompt None) w)
    | line :: q => (Ret line, emit (Input prompt (Some line)) (set_stdin q w))
    end.

(** [int(s)], raising ValueError on a string that is no integer. *)
Definition int (s : string) : M Z :=
  match PyStr.int s with
  | Some n => ret n
  | None => raise (ValueError ("invalid literal for int() with base 10: " ++ s))
  end.

(** A socket call that returns None or raises OSError. *)
Definition syscall (o : op) (c : call) : M unit :=
  fun w =>
    match next_fault o w with
    | (Some reason, w') =>
        (Raise (OSError reason), emit (Sys c (Raised (OSError reason))) w')
    | (None, w') => (Ret tt, emit (Sys c RNone) w')
    end.

(** A socket call that returns a new socket object or raises OSError. *)
Definition syscall_sock (o : op) (c : call) : M sock :=
  fun w =>
    match next_fault o w with
    | (Some reason, w') =>
        (Raise (OSError reason), emit (Sys c (Raised (OSError reason))) w')
    | (None, w') =>
        let s := next_handle w' in
        (Ret s, emit (Sys c (RSock s)) (set_next_handle (S s) w'))
    end.

Definition socket (f : family) (t : socktype) : M sock :=
  syscall_sock OpSocket (Socket f t).

Definition setsockopt (s : sock) (l : level) (o : sockopt) (v : Z) : M unit :=
  syscall OpSetsockopt (Setsockopt s l o v).

(** [s.bind((host, port))]: the port is checked before the system is asked. *)
Definition bind_to (s : sock) (a : addr) : M unit :=
  if (0 <=? snd a) && (snd a <=? 65535)
  then syscall OpBind (Bind s a)
  else
    let e := OverflowError "bind(): port must be 0-65535." in
    fun w => (Raise e, emit (Sys (Bind s a) (Raised e)) w).

Definition listen (s : sock) (backlog : Z) : M unit :=
  syscall OpListen (Listen s backlog).

(** [listener.accept()]: blocks until a client knocks. *)
Definition accept (s : sock) : M (sock * addr) :=
  fun w =>
    match clients w with
    | [] => (Blocked, w)
    | AcceptFails reason :: q =>
        (Raise (OSError reason),
         emit (Sys (Accept s) (Raised (OSError reason))) (set_clients q w))
    | Client peer :: q =>
        let c := next_handle w in
        (Ret (c, peer),
         emit (Sys (Accept s) (RConn c peer))
              (set_next_handle (S c) (set_clients q w)))
    end.

(** [socket.create_connection(address, timeout=...)] *)
Definition create_connection (a : addr) (timeout : Z) : M sock :=
  syscall_sock OpConnect (CreateConnection a timeout).

(** The first [n] elements of a list, and the others. *)
Fixpoint take {A} (n : Z) (l : list A) : list A :=
  match l with
  | [] => []
  | x :: l' => if 0 <? n then x :: take (n - 1) l' else []
  end.

Fixpoint drop {A} (n : Z) (l : list A) : list A :=
  match l with
  | [] => []
  | x :: l' => if 0 <? n then drop (n - 1) l' else l
  end.

Definition is_nil {A} (l : list A) : bool :=
  match l with [] => true | _ => false end.

(** [s.recv(bufsize)]: at most [bufsize] bytes of what has arrived, the rest
    of the segment staying for the next call; b'' at the end of the stream. *)
Definition recv (s : sock) (bufsize : Z) : M bytes :=
  fun w =>
    match incoming w with
    | [] => (Ret [], emit (Sys (Recv s bufsize) (RBytes [])) w)
    | RecvFails reason :: q =>
        (Raise (OSError reason),
         emit (Sys (Recv s bufsize) (Raised (OSError reason))) (set_incoming q w))
    | Segment d :: q =>
        let data := take bufsize d in
        let later := drop bufsize d in
        (Ret data,
         emit (Sys (Recv s bufsize) (RBytes data))
              (set_incoming (if is_nil later then q else Segment later :: q) w))
    end.

Definition sendall (s : sock) (data : bytes) : M unit :=
  syscall OpSendall (Sendall s data).

(** [s.close()]: the handle is released whether or not an error is
    reported, as the socket object gives up its descriptor first. *)
Definition close (s : sock) : M unit :=
  syscall OpClose (Close s).

(** [threading.Thread(target=..., args=..., daemon=True).start()] *)
Definition start_thread (t : task) : M unit :=
  fun w => (Ret tt, emit (Start t) w).

(** [threading.Event().wait(timeout)] in the main thread: the timeout
    elapses, or Ctrl+C arrives. *)
Definition wait (timeout : Z) : M unit :=
  fun w =>
    match signals w with
    | [] => (Blocked, w)
    | true :: q => (Raise KeyboardInterrupt, set_signals q w)
    | false :: q => (Ret tt, emit (Wait timeout) (set_signals q w))
    end.

(** ** The program *)

Definition log (msg : string) : M unit := print msg.

(** The bytes still to come on the stream, counting one more per segment:
    every round of the copy loop uses up some of it. *)
Fixpoint stream_size (q : list delivery) : nat :=
  match q with
  | [] => 0
  | Segment d :: q' => S (List.length d + stream_size q')
  | RecvFails _ :: q' => S (stream_size q')
  end.

(** One round of the loop of [pipe]. *)
Definition pipe_round (src dst : sock) (_ : unit) : M (ctl unit) :=
  data <- recv src BUFFER_SIZE ;;
  if is_nil data then ret (Break tt)
  else (sendall dst data ;; ret (Continue tt)).

(** The [try] block of [pipe] with its bare [except: pass]. *)
Definition pipe_copy (src dst : sock) : M unit :=
  try_except
    (loop (fun w => stream_size (incoming w)) (pipe_round src dst) tt)
    any_exception (fun _ => ret tt).

(** The [finally] block of [pipe]. *)
Definition pipe_cleanup (src dst : sock) : M unit :=
  try_except (close src) any_exception (fun _ => ret tt) ;;
  try_except (close dst) any_exception (fun _ => ret tt).

Definition pipe (src dst : sock) : M unit :=
  try_finally (pipe_copy src dst) (pipe_cleanup src dst).

(** One round of the loop of [start_forwarder]. *)
Definition forward_round (listener : sock) (remote_ip : string)
    (remote_port : Z) (_ : unit) : M (ctl unit) :=
  '(client_sock, peer) <- accept listener ;;
  log ("[+] Incoming connection from " ++ PyStr.str_addr peer) ;;
  dialed <-
    try_except
      (remote_sock <- create_connection (remote_ip, remote_port) 10 ;;
       ret (Some remote_sock))
      is_Exception
      (fun e =>
         log ("[!] Failed connecting to " ++ remote_ip ++ ":"
              ++ PyStr.str remote_port ++ " - " ++ PyStr.str_exn e) ;;
         close client_sock ;;
         ret None) ;;
  match dialed with
  | None => ret (Continue tt)
  | Some remote_sock =>
      start_thread (Pipe client_sock remote_sock) ;;
      start_thread (Pipe remote_sock client_sock) ;;
      ret (Continue tt)
  end.

(** The accept loop of [start_forwarder]. *)
Definition forward_loop (listener : sock) (remote_ip : string)
    (remote_port : Z) : M unit :=
  loop (fun w => List.length (clients w))
       (forward_round listener remote_ip remote_port) tt.

Definition start_forwarder (local_ip : string) (local_port : Z)
    (remote_ip : string) (remote_port : Z) : M unit :=
  listener <- socket AF_INET SOCK_STREAM ;;
  setsockopt listener SOL_SOCKET SO_REUSEADDR 1 ;;
  bind_to listener (local_ip, local_port) ;;
  listen listener 50 ;;
  log ("[+] Forwarding " ++ local_ip ++ ":" ++ PyStr.str local_port
       ++ "  --->  " ++ remote_ip ++ ":" ++ PyStr.str remote_port) ;;
  forward_loop listener remote_ip remote_port.

(** The two prompts of [main]. *)
Definition ip_prompt : string := "Enter GLOBAL server IP: ".

Definition mapping_prompt : string :=
  PyStr.nl ++ "Enter mapping or press Enter to finish: ".

(** One round of the input loop of [main]; [mappings] is the list built so
    far, and the round gives back the list it leaves. *)
Definition read_mapping (remote_ip : string) (mappings : list mapping)
  : M (ctl (list mapping)) :=
  line <- input mapping_prompt ;;
  let entry := PyStr.strip line in
  if PyStr.is_empty entry then ret (Break mappings)
  else
    let parts := PyStr.split entry in
    if negb (List.length parts =? 3)%nat
    then (print "Format must be: local_ip local_port remote_port" ;;
          ret (Continue mappings))
    else
      parsed <-
        try_except
          (let local_ip := nth 0 parts EmptyString in
           local_port <- int (nth 1 parts EmptyString) ;;
           remote_port <- int (nth 2 parts EmptyString) ;;
           ret (Some (local_ip, local_port, remote_port)))
          is_ValueError
          (fun _ => print "Port numbers must be integers." ;; ret None) ;;
      match parsed with
      | None => ret (Continue mappings)
      | Some (local_ip, local_port, remote_port) =>
          print ("[+] Added: " ++ local_ip ++ ":" ++ PyStr.str local_port
                 ++ " → " ++ remote_ip ++ ":" ++ PyStr.str remote_port) ;;
          ret (Continue
                 (mappings ++ [(local_ip, local_port, remote_ip, remote_port)])%list)
      end.

(** The input loop of [main], with [mappings] as it stands on entry. *)
Definition read_mappings_from (remote_ip : string) (mappings : list mapping)
  : M (list mapping) :=
  loop (fun w => List.length (stdin w)) (read_mapping remote_ip) mappings.

(** The input loop of [main]: [mappings = []] before it. *)
Definition read_mappings (remote_ip : string) : M (list mapping) :=
  read_mappings_from remote_ip [].

(** The lines [main] prints before it asks anything. *)
Definition banner : list string :=
  [ "=== SIMPLE TCP PORT MAPPER ===";
    "Maps ports from THIS machine to a REMOTE (public/global) server." ++ PyStr.nl;
    "Example mapping format:";
    "local_ip local_port remote_port";
    "Example:";
    "127.0.0.1 2222 22  (→ forwards localhost:2222 → SERVER:22)" ++ PyStr.nl ].

(** The keep-alive loop of [main]. *)
Definition keep_alive : M unit :=
  loop (fun w => List.length (signals w))
       (fun _ : unit => wait 3600 ;; ret (Continue tt)) tt.

(** [main] once the mappings are read. *)
Definition start_all (mappings : list mapping) : M unit :=
  if is_nil mappings
  then print "No mappings defined. Exiting."
  else
    (print (PyStr.nl ++ "[+] Starting all forwards..." ++ PyStr.nl) ;;
     for_each mappings
       (fun '(local_ip, local_port, r_ip, r_port) =>
          start_thread (Forwarder local_ip local_port r_ip r_port)) ;;
     print ("[+] All mappings active. Press Ctrl+C to stop." ++ PyStr.nl) ;;
     try_except keep_alive is_KeyboardInterrupt
       (fun _ => print (PyStr.nl ++ "[+] Stopping."))).

Definition main : M unit :=
  for_each banner print ;;
  line <- input ip_prompt ;;
  let remote_ip := PyStr.strip line in
  if PyStr.is_empty remote_ip
  then print "Remote IP is required. Exiting."
  else (mappings <- read_mappings remote_ip ;; start_all mappings).

(** What a started thread runs: the target with its arguments. *)
Definition thread_body (t : task) : M unit :=
  match t with
  | Pipe src dst => pipe src dst
  | Forwarder local_ip local_port remote_ip remote_port =>
      start_forwarder local_ip local_port remote_ip remote_port
  end.

(** A thread from its start to its end, as the threading module runs it: an
    exception that leaves the target ends the thread and goes to
    threading.excepthook, which writes a traceback on stderr; it reaches no
    other thread. *)
Definition run_thread (t : task) : M unit :=
  try_except (thread_body t) any_exception
    (fun e w => (Ret tt, emit (Uncaught e) w)).

(** ** Reading a trace *)

(** A world that has answered nothing yet and where every call will take its
    ordinary course; the examples below set the fields they need. *)
Definition quiet : world :=
  World [] [] (fun _ => []) [] [] 3%nat [].

(** Whether close() was called on a handle. *)
Definition closes (s : sock) (e : event) : bool :=
  match e with Sys (Close s') _ => Nat.eqb s s' | _ => false end.

Definition is_closed (s : sock) (tr : list event) : bool :=
  existsb (closes s) tr.

(** The events of the terminal: what was printed and what was asked. *)
Definition is_console (e : event) : bool :=
  match e with Print _ | Input _ _ => true | _ => false end.

Definition is_print (e : event) : bool :=
  match e with Print _ => true | _ => false end.

Definition is_start (e : event) : bool :=
  match e with Start _ => true | _ => false end.

Definition is_accept (e : event) : bool :=
  match e with Sys (Accept _) _ => true | _ => false end.

(** The calls that set a listening socket up. *)
Definition is_setup (e : event) : bool :=
  match e with
  | Sys (Socket _ _) _ | Sys (Setsockopt _ _ _ _) _
  | Sys (Bind _ _) _ | Sys (Listen _ _) _ => true
  | _ => false
  end.

Definition not_setup (e : event) : bool := negb (is_setup e).

Definition not_start (e : event) : bool := negb (is_start e).

(** The thread [main] starts for a mapping. *)
Definition forwarder_of (m : mapping) : task :=
  let '(local_ip, local_port, r_ip, r_port) := m in
  Forwarder local_ip local_port r_ip r_port.

(** How the copy loop of [pipe] may run, as the list of its calls: a read
    of [BUFFER_SIZE] bytes from [src], then, unless the read raised or gave
    nothing, a write of what was read to [dst], and so on until a read gives
    nothing or a call raises.  The second argument is how the loop ends. *)
Inductive copy_run (src dst : sock) : list event -> res unit -> Prop :=
| copy_eof :
    copy_run src dst [Sys (Recv src BUFFER_SIZE) (RBytes [])] (Ret tt)
| copy_recv_raises e :
    copy_run src dst [Sys (Recv src BUFFER_SIZE) (Raised e)] (Raise e)
| copy_send_raises data e :
    data <> [] ->
    Z.of_nat (List.length data) <= BUFFER_SIZE ->
    copy_run src dst
      [Sys (Recv src BUFFER_SIZE) (RBytes data);
       Sys (Sendall dst data) (Raised e)] (Raise e)
| copy_more data io r :
    data <> [] ->
    Z.of_nat (List.length data) <= BUFFER_SIZE ->
    copy_run src dst io r ->
    copy_run src dst
      (Sys (Recv src BUFFER_SIZE) (RBytes data)
         :: Sys (Sendall dst data) RNone :: io) r.

(** The bytes that reach the reader of a stream before it ends or fails. *)
Fixpoint arrived (q : list delivery) : bytes :=
  match q with
  | Segment (b :: d) :: q' => ((b :: d) ++ arrived q')%list
  | _ => []
  end.

(** The chunks the reads of a run returned, the empty one apart. *)
Fixpoint chunks_read (io : list event) : list bytes :=
  match io with
  | [] => []
  | Sys (Recv _ _) (RBytes data) :: io' =>
      if is_nil data then chunks_read io' else data :: chunks_read io'
  | _ :: io' => chunks_read io'
  end.

(** The chunks a run passed to sendall, with the socket they went to. *)
Fixpoint chunks_written (io : list event) : list (sock * bytes) :=
  match io with
  | [] => []
  | Sys (Sendall s data) _ :: io' => (s, data) :: chunks_written io'
  | _ :: io' => chunks_written io'
  end.

(** The sockets and buffer sizes of the reads of a run. *)
Fixpoint reads (io : list event) : list (sock * Z) :=
  match io with
  | [] => []
  | Sys (Recv s n) _ :: io' => (s, n) :: reads io'
  | _ :: io' => reads io'
  end.

(** What a call of kind [o] is answered when [f] heads its queue. *)
Definition answer_of (f : option string) : returned :=
  match f with
  | Some reason => Raised (OSError reason)
  | None => RNone
  end.

(** The head of a queue of answers; a used-up queue lets the call succeed. *)
Definition head_fault (q : list (option string)) : option string :=
  hd None q.

(** The next call of kind [o] will succeed. *)
Definition no_fault (o : op) (w : world) : Prop :=
  head_fault (faults w o) = None.

(** The line [start_forwarder] logs once it listens. *)
Definition forwarding_line (local_ip : string) (local_port : Z)
    (remote_ip : string) (remote_port : Z) : string :=
  "[+] Forwarding " ++ local_ip ++ ":" ++ PyStr.str local_port
  ++ "  --->  " ++ remote_ip ++ ":" ++ PyStr.str remote_port.

(** ** Example runs *)

Definition hello : bytes := list_byte_of_string "hello".

Definition refused : string := "[Errno 111] Connection refused".

(** accept() fails for the first client, for want of descriptors; a second
    client knocks afterwards. *)
Definition knocks_accept_fails : world :=
  set_clients [AcceptFails "[Errno 24] Too many open files";
               Client ("10.0.0.2", 7777)] quiet.

Definition run_accept_fails : res unit * world :=
  start_forwarder "127.0.0.1" 2222 "203.0.113.5" 22 knocks_accept_fails.

Definition thread_accept_fails : res unit * world :=
  run_thread (Forwarder "127.0.0.1" 2222 "203.0.113.5" 22) knocks_accept_fails.

(** The remote server refuses the first client's connection; a second
    client knocks afterwards. *)
Definition knocks_dial_refused : world :=
  set_faults (fun o => match o with OpConnect => [Some refused] | _ => [] end)
    (set_clients [Client ("10.0.0.1", 5555); Client ("10.0.0.2", 7777)] quiet).

(** The local port is taken. *)
Definition port_taken : world :=
  set_faults
    (fun o => match o with
              | OpBind => [Some "[Errno 98] Address already in use"]
              | _ => []
              end)
    (set_clients [Client ("10.0.0.1", 5555)] quiet).

Definition run_port_taken : res unit * world :=
  start_forwarder "127.0.0.1" 2222 "203.0.113.5" 22 port_taken.

Definition thread_port_taken : res unit * world :=
  run_thread (Forwarder "127.0.0.1" 2222 "203.0.113.5" 22) port_taken.

(** At the mapping prompt, the operator types a mapping with a port that is
    no number, then a good one, then ends the input. *)
Definition typed_bad_port : world :=
  set_stdin ["127.0.0.1 abc 22"; "127.0.0.1 2222 22"; ""] quiet.

(** The operator gives the remote address and no mapping. *)
Definition typed_no_mapping : world :=
  set_stdin [" 203.0.113.5 "; ""] quiet.

(** The operator gives no remote address. *)
Definition typed_no_ip : world :=
  set_stdin ["   "; "127.0.0.1 2222 22"; ""] quiet.

(** ** Further readings of a trace *)

(** The two lines the accept loop logs about a client. *)
Definition incoming_line (peer : addr) : string :=
  "[+] Incoming connection from " ++ PyStr.str_addr peer.

Definition failed_line (remote_ip : string) (remote_port : Z)
    (reason : string) : string :=
  "[!] Failed connecting to " ++ remote_ip ++ ":" ++ PyStr.str remote_port
  ++ " - " ++ reason.

(** How the accept loop of [start_forwarder] may run, as the list of its
    calls from the moment the next fresh handle is [h]: client after client,
    an accept, its log line and the dial, then either the two threads of the
    relay or, the dial having failed, the log line and the close of the
    accepted socket; until no client knocks any more (the loop blocks in
    accept) or an accept or a close raises.  The last argument is how the
    loop ends. *)
Inductive listener_run (listener : sock) (remote_ip : string)
    (remote_port : Z) : sock -> list event -> res unit -> Prop :=
| listener_waits h :
    listener_run listener remote_ip remote_port h [] Blocked
| listener_accept_raises h reason :
    listener_run listener remote_ip remote_port h
      [Sys (Accept listener) (Raised (OSError reason))]
      (Raise (OSError reason))
| listener_relays h peer evs r :
    listener_run listener remote_ip remote_port (S (S h)) evs r ->
    listener_run listener remote_ip remote_port h
      (Sys (Accept listener) (RConn h peer)
       :: Print (incoming_line peer)
       :: Sys (CreateConnection (remote_ip, remote_port) 10) (RSock (S h))
       :: Start (Pipe h (S h))
       :: Start (Pipe (S h) h)
       :: evs) r
| listener_dial_fails h peer reason evs r :
    listener_run listener remote_ip remote_port (S h) evs r ->
    listener_run listener remote_ip remote_port h
      (Sys (Accept listener) (RConn h peer)
       :: Print (incoming_line peer)
       :: Sys (CreateConnection (remote_ip, remote_port) 10)
              (Raised (OSError reason))
       :: Print (failed_line remote_ip remote_port reason)
       :: Sys (Close h) RNone
       :: evs) r
| listener_close_raises h peer reason reason' :
    listener_run listener remote_ip remote_port h
      [Sys (Accept listener) (RConn h peer);
       Print (incoming_line peer);
       Sys (CreateConnection (remote_ip, remote_port) 10)
           (Raised (OSError reason));
       Print (failed_line remote_ip remote_port reason);
       Sys (Close h) (Raised (OSError reason'))]
      (Raise (OSError reason')).

(** The sockets handed to the threads a trace starts. *)
Fixpoint relayed (tr : list event) : list sock :=
  match tr with
  | [] => []
  | Start (Pipe a b) :: tr' => a :: b :: relayed tr'
  | _ :: tr' => relayed tr'
  end.

(** The threads a trace starts. *)
Fixpoint started (tr : list event) : list task :=
  match tr with
  | [] => []
  | Start t :: tr' => t :: started tr'
  | _ :: tr' => started tr'
  end.

(** All the bytes a trace passed to sendall, end to end. *)
Definition bytes_written (tr : list event) : bytes :=
  List.concat (map snd (chunks_written tr)).

(** No call of kind [o] is going to raise. *)
Definition never_fails (o : op) (w : world) : Prop :=
  Forall (fun f => f = None) (faults w o).

(** The calls [pipe src dst] may make: recv on [src], sendall on [dst],
    close on either. *)
Definition is_pipe_call (src dst : sock) (e : event) : bool :=
  match e with
  | Sys (Recv s _) _ => Nat.eqb s src
  | Sys (Sendall s _) _ => Nat.eqb s dst
  | Sys (Close s) _ => Nat.eqb s src || Nat.eqb s dst
  | _ => false
  end.

(** A line that is empty once stripped. *)
Definition is_blank (line : string) : bool :=
  PyStr.is_empty (PyStr.strip line).

(** What a line typed at the mapping prompt adds to the mappings: one
    mapping when it has three tokens of which the last two are integers,
    nothing otherwise. *)
Definition parse_mapping (remote_ip line : string) : option mapping :=
  match PyStr.split (PyStr.strip line) with
  | [local_ip; p; q] =>
      match PyStr.int p, PyStr.int q with
      | Some local_port, Some remote_port =>
          Some (local_ip, local_port, remote_ip, remote_port)
      | _, _ => None
      end
  | _ => None
  end.

(** The mappings of a list of lines, in the order typed. *)
Fixpoint collect (remote_ip : string) (lines : list string) : list mapping :=
  match lines with
  | [] => []
  | line :: lines' =>
      match parse_mapping remote_ip line with
      | Some m => m :: collect remote_ip lines'
      | None => collect remote_ip lines'
      end
  end.

(** The remote address of a mapping. *)
Definition remote_of (m : mapping) : string :=
  let '(_, _, remote_ip, _) := m in remote_ip.

Definition is_wait (e : event) : bool :=
  match e with Wait _ => true | _ => false end.

(** The sockets a trace calls close() on, in order. *)
Fixpoint closed_sockets (tr : list event) : list sock :=
  match tr with
  | [] => []
  | Sys (Close s) _ :: tr' => s :: closed_sockets tr'
  | _ :: tr' => closed_sockets tr'
  end.

(** The accepted sockets of a trace whose dial failed, in order: [last] is
    the socket accepted last and not yet dialed for. *)
Fixpoint failed_dials (last : option sock) (tr : list event) : list sock :=
  match tr with
  | [] => []
  | Sys (Accept _) (RConn c _) :: tr' => failed_dials (Some c) tr'
  | Sys (CreateConnection _ _) (Raised _) :: tr' =>
      match last with
      | Some c => c :: failed_dials None tr'
      | None => failed_dials None tr'
      end
  | Sys (CreateConnection _ _) _ :: tr' => failed_dials None tr'
  | _ :: tr' => failed_dials last tr'
  end.




(** ** Lists *)

Unset Implicit Arguments.

(** Split a conjunction into its parts, and nothing else. *)
Ltac conjuncts := repeat match goal with |- _ /\ _ => split end.

(** Two traces that differ by the bracketing of their appends. *)
Ltac trace_assoc :=
  repeat (rewrite <- app_assoc || rewrite <- app_comm_cons); reflexivity.

Lemma take_drop {A} (l : list A) : forall n, (take n l ++ drop n l)%list = l.
Proof.
  induction l as [|x l IH]; intros n; simpl; [reflexivity|].
  destruct (0 <? n); simpl; [rewrite IH|]; reflexivity.
Qed.

Lemma take_length {A} (l : list A) :
  forall n, 0 <= n -> Z.of_nat (List.length (take n l)) <= n.
Proof.
  induction l as [|x l IH]; intros n Hn; simpl; [lia|].
  destruct (0 <? n) eqn:E; simpl; [|lia].
  apply Z.ltb_lt in E. specialize (IH (n - 1)). lia.
Qed.

Lemma take_nil {A} (l : list A) n : 0 < n -> take n l = [] -> l = [].
Proof.
  intros Hn. destruct l as [|x l]; simpl; [reflexivity|].
  apply Z.ltb_lt in Hn. rewrite Hn. discriminate.
Qed.

Lemma drop_length {A} (l : list A) :
  forall n, (List.length (drop n l) <= List.length l)%nat.
Proof.
  induction l as [|x l IH]; intros n; simpl; [lia|].
  destruct (0 <? n); simpl; [specialize (IH (n - 1))|]; lia.
Qed.

Lemma drop_shorter {A} (l : list A) n :
  0 < n -> l <> [] -> (List.length (drop n l) < List.length l)%nat.
Proof.
  intros Hn Hl. destruct l as [|x l]; [congruence|].
  simpl. apply Z.ltb_lt in Hn. rewrite Hn.
  pose proof (drop_length l (n - 1)). lia.
Qed.

Lemma is_nil_true {A} (l : list A) : is_nil l = true -> l = [].
Proof. destruct l; [reflexivity|discriminate]. Qed.

Lemma is_nil_false {A} (l : list A) : is_nil l = false -> l <> [].
Proof. destruct l; [discriminate|congruence]. Qed.

(** ** Loops *)

Section Loops.

Variable St : Type.
Variable size : world -> nat.
Variable body : St -> M (ctl St).

(** Every round that asks for another one has used up part of the world. *)
Hypothesis body_shrinks :
  forall s w s' w',
    body s w = (Ret (Continue s'), w') -> (size w' < size w)%nat.

Lemma while_true_S :
  forall fuel s w,
    while_true (S fuel) body s w =
    match body s w with
    | (Ret (Continue s'), w') => while_true fuel body s' w'
    | (Ret (Break s'), w') => (Ret s', w')
    | (Raise e, w') => (Raise e, w')
    | (Blocked, w') => (Blocked, w')
    | (OutOfFuel, w') => (OutOfFuel, w')
    end.
Proof. reflexivity. Qed.

(** Fuel beyond the size of the world changes nothing. *)
Lemma while_true_enough :
  forall f1 f2 s w,
    (size w < f1)%nat -> (size w < f2)%nat ->
    while_true f1 body s w = while_true f2 body s w.
Proof.
  induction f1 as [|f1 IH]; intros f2 s w H1 H2; [lia|].
  destruct f2 as [|f2]; [lia|]. simpl.
  destruct (body s w) as [[[s'|s']|e| |] w'] eqn:E; try reflexivity.
  apply body_shrinks in E. apply IH; lia.
Qed.

(** One round of a loop, then the loop again. *)
Lemma loop_unfold :
  forall s w,
    loop size body s w =
    match body s w with
    | (Ret (Continue s'), w') => loop size body s' w'
    | (Ret (Break s'), w') => (Ret s', w')
    | (Raise e, w') => (Raise e, w')
    | (Blocked, w') => (Blocked, w')
    | (OutOfFuel, w') => (OutOfFuel, w')
    end.
Proof.
  intros s w. unfold loop. rewrite while_true_S.
  destruct (body s w) as [[[s'|s']|e| |] w'] eqn:E; try reflexivity.
  apply body_shrinks in E. apply while_true_enough; lia.
Qed.

(** A loop over rounds that never run out of fuel never does. *)
Lemma while_true_fuelled :
  (forall s w, fst (body s w) <> OutOfFuel) ->
  forall fuel s w,
    (size w < fuel)%nat -> fst (while_true fuel body s w) <> OutOfFuel.
Proof.
  intros Hbody. induction fuel as [|fuel IH]; intros s w Hf; [lia|].
  simpl. specialize (Hbody s w).
  destruct (body s w) as [[[s'|s']|e| |] w'] eqn:E; simpl in *;
    try discriminate; try congruence.
  apply body_shrinks in E. apply IH. lia.
Qed.

End Loops.

(** ** The relay copy: [pipe] *)

Lemma buffer_positive : 0 < BUFFER_SIZE.
Proof. reflexivity. Qed.

Lemma trace_emit e w : trace (emit e w) = (trace w ++ [e])%list.
Proof. reflexivity. Qed.

(** What is left of a segment after a read that returned something. *)
Lemma stream_shrinks d q :
  is_nil (take BUFFER_SIZE d) = false ->
  (stream_size (if is_nil (drop BUFFER_SIZE d) then q
                else Segment (drop BUFFER_SIZE d) :: q)
   < stream_size (Segment d :: q))%nat.
Proof.
  intros Hd. simpl.
  destruct (is_nil (drop BUFFER_SIZE d)); simpl; [lia|].
  assert (d <> []) as Hne by (intros ->; discriminate).
  pose proof (drop_shorter d BUFFER_SIZE buffer_positive Hne). lia.
Qed.

(** A read that returns something takes it off the front of the stream. *)
Lemma arrived_step d q :
  is_nil (take BUFFER_SIZE d) = false ->
  arrived (Segment d :: q)
  = (take BUFFER_SIZE d
     ++ arrived (if is_nil (drop BUFFER_SIZE d) then q
                 else Segment (drop BUFFER_SIZE d) :: q))%list.
Proof.
  intros Hd. pose proof (take_drop d BUFFER_SIZE) as Htd.
  assert (arrived (Segment d :: q) = (d ++ arrived q)%list) as ->
    by (destruct d; [discriminate|reflexivity]).
  destruct (drop BUFFER_SIZE d) as [|b later] eqn:Hdrop; simpl.
  - rewrite app_nil_r in Htd. rewrite Htd. reflexivity.
  - rewrite <- Htd at 1. rewrite <- app_assoc. reflexivity.
Qed.

(** The copy loop, given enough fuel for the stream: it ends, the calls it
    made form a [copy_run], what it read is the front of what arrived (all of
    it when the loop ends at the end of the stream), and it leaves the
    answers to close() alone. *)
Lemma copy_rounds :
  forall fuel src dst w,
    (stream_size (incoming w) < fuel)%nat ->
    exists io r w',
      while_true fuel (pipe_round src dst) tt w = (r, w')
      /\ trace w' = (trace w ++ io)%list
      /\ copy_run src dst io r
      /\ faults w' OpClose = faults w OpClose
      /\ exists unread,
           arrived (incoming w) = (List.concat (chunks_read io) ++ unread)%list
           /\ (r = Ret tt -> unread = []).
Proof.
  induction fuel as [|fuel IH]; intros src dst w Hf; [lia|].
  rewrite while_true_S. unfold pipe_round at 1, bind, recv.
  destruct (incoming w) as [|[d|reason] q] eqn:E.
  - simpl. eexists _, _, _. conjuncts; try reflexivity; [constructor|].
    exists []. auto.
  - destruct (is_nil (take BUFFER_SIZE d)) eqn:En.
    + simpl. apply is_nil_true in En. rewrite En.
      eexists _, _, _. conjuncts; try reflexivity; [constructor|].
      exists []. split; [|auto].
      destruct d as [|b d]; [reflexivity|].
      simpl in En. discriminate.
    + pose proof (is_nil_false _ En) as Hne.
      pose proof (take_length d BUFFER_SIZE ltac:(discriminate)) as Hlen.
      pose proof (stream_shrinks d q En) as Hsize.
      rewrite (arrived_step d q En).
      unfold sendall, syscall, next_fault. simpl.
      destruct (faults w OpSendall) as [|[reason|] fq] eqn:Ef; simpl.
      * edestruct IH as (io & r & w' & Hrun & Htr & Hio & Hcl & unread & Hu & Hall);
          [|rewrite Hrun;
            exists (Sys (Recv src BUFFER_SIZE) (RBytes (take BUFFER_SIZE d))
                      :: Sys (Sendall dst (take BUFFER_SIZE d)) RNone :: io), r, w';
            conjuncts].
        -- simpl. simpl in Hf, Hsize. lia.
        -- reflexivity.
        -- rewrite Htr. simpl. repeat rewrite <- app_assoc. reflexivity.
        -- constructor; assumption.
        -- rewrite Hcl. reflexivity.
        -- exists unread. split; [|exact Hall].
           simpl in Hu. cbn [chunks_read]. rewrite En. cbn [List.concat].
           rewrite Hu, <- app_assoc. reflexivity.
      * eexists _, _, _. conjuncts; try reflexivity.
        -- simpl. rewrite <- app_assoc. reflexivity.
        -- constructor; assumption.
        -- eexists. split; [|discriminate].
           cbn [app chunks_read]. rewrite En. cbn [List.concat].
           rewrite (app_nil_r (take BUFFER_SIZE d)). reflexivity.
      * edestruct IH as (io & r & w' & Hrun & Htr & Hio & Hcl & unread & Hu & Hall);
          [|rewrite Hrun;
            exists (Sys (Recv src BUFFER_SIZE) (RBytes (take BUFFER_SIZE d))
                      :: Sys (Sendall dst (take BUFFER_SIZE d)) RNone :: io), r, w';
            conjuncts].
        -- simpl. simpl in Hf, Hsize. lia.
        -- reflexivity.
        -- rewrite Htr. simpl. repeat rewrite <- app_assoc. reflexivity.
        -- constructor; assumption.
        -- rewrite Hcl. reflexivity.
        -- exists unread. split; [|exact Hall].
           simpl in Hu. cbn [chunks_read]. rewrite En. cbn [List.concat].
           rewrite Hu, <- app_assoc. reflexivity.
  - simpl. eexists _, _, _. conjuncts; try reflexivity; [constructor|].
    exists []. split; [reflexivity|discriminate].
Qed.

(** A run ends at the end of the stream or with the exception of the call
    that failed, never otherwise. *)
Lemma copy_run_ends src dst io r :
  copy_run src dst io r -> r = Ret tt \/ exists e, r = Raise e.
Proof. induction 1; eauto. Qed.

(** The [try] block: whatever ends the loop, the block is left normally. *)
Lemma pipe_copy_run :
  forall src dst w,
    exists io r w',
      pipe_copy src dst w = (Ret tt, w')
      /\ trace w' = (trace w ++ io)%list
      /\ copy_run src dst io r
      /\ faults w' OpClose = faults w OpClose
      /\ exists unread,
           arrived (incoming w) = (List.concat (chunks_read io) ++ unread)%list
           /\ (r = Ret tt -> unread = []).
Proof.
  intros src dst w. unfold pipe_copy, try_except, loop.
  destruct (copy_rounds (S (stream_size (incoming w))) src dst w)
    as (io & r & w' & Hrun & Htr & Hio & Hcl & Hu); [lia|].
  rewrite Hrun. exists io, r, w'.
  destruct (copy_run_ends _ _ _ _ Hio) as [->|[e ->]]; simpl; auto.
Qed.

(** The [finally] block: each close() is called, and answered as the
    environment decides; an exception of the first does not keep the second
    from being called, and none leaves the block. *)
Lemma pipe_cleanup_run :
  forall src dst w,
    exists w',
      pipe_cleanup src dst w = (Ret tt, w')
      /\ trace w' =
         (trace w ++
          [Sys (Close src) (answer_of (head_fault (faults w OpClose)));
           Sys (Close dst) (answer_of (head_fault (tl (faults w OpClose))))])%list.
Proof.
  intros src dst w.
  unfold pipe_cleanup, bind, try_except, close, syscall, next_fault.
  destruct (faults w OpClose) as [|[r1|] [|[r2|] q]] eqn:E; simpl;
    rewrite ?E; simpl; eexists; split; try reflexivity;
    simpl; rewrite <- app_assoc; reflexivity.
Qed.

(** The whole of [pipe]. *)
Lemma pipe_run :
  forall src dst w,
    exists io r w',
      pipe src dst w = (Ret tt, w')
      /\ copy_run src dst io r
      /\ trace w' =
         (trace w ++ io ++
          [Sys (Close src) (answer_of (head_fault (faults w OpClose)));
           Sys (Close dst) (answer_of (head_fault (tl (faults w OpClose))))])%list
      /\ exists unread,
           arrived (incoming w) = (List.concat (chunks_read io) ++ unread)%list
           /\ (r = Ret tt -> unread = []).
Proof.
  intros src dst w. unfold pipe, try_finally.
  destruct (pipe_copy_run src dst w)
    as (io & r & w1 & Hcopy & Htr & Hio & Hcl & Hu).
  destruct (pipe_cleanup_run src dst w1) as (w2 & Hclean & Htr2).
  rewrite Hcopy. unfold bind. rewrite Hclean. simpl.
  exists io, r, w2. repeat split; [assumption| |exact Hu].
  rewrite Htr2, Htr, Hcl, <- app_assoc. reflexivity.
Qed.

Lemma is_closed_app s tr1 tr2 :
  is_closed s (tr1 ++ tr2) = is_closed s tr1 || is_closed s tr2.
Proof. apply existsb_app. Qed.

Lemma chunks_of_run src dst io r :
  copy_run src dst io r ->
  chunks_written io = map (fun data => (dst, data)) (chunks_read io)
  /\ Forall (fun rd => rd = (src, BUFFER_SIZE)) (reads io)
  /\ Forall (fun data => data <> [] /\ Z.of_nat (List.length data) <= BUFFER_SIZE)
            (chunks_read io).
Proof.
  induction 1 as [|e|data e Hne Hlen|data io r Hne Hlen Hrun IH]; simpl.
  - repeat split; repeat constructor.
  - repeat split; repeat constructor.
  - destruct data as [|b data]; [congruence|]. simpl.
    repeat split; repeat constructor; [discriminate|assumption].
  - destruct IH as (Hw & Hr & Hc).
    destruct data as [|b data]; [congruence|]. simpl.
    repeat split; [rewrite Hw; reflexivity| |]; constructor;
      try assumption; try reflexivity.
    split; [discriminate|assumption].
Qed.

(** ** The listener: [start_forwarder] *)

(** One round of the accept loop, case by case on what the environment
    answers: no client (accept blocks), accept raises, the dial succeeds,
    the dial fails and close() returns, the dial fails and close() raises. *)
Lemma forward_round_cases :
  forall listener remote_ip remote_port w,
    match clients w with
    | [] => forward_round listener remote_ip remote_port tt w = (Blocked, w)
    | AcceptFails reason :: q =>
        exists w',
          forward_round listener remote_ip remote_port tt w
          = (Raise (OSError reason), w')
          /\ trace w' =
             (trace w ++ [Sys (Accept listener) (Raised (OSError reason))])%list
          /\ clients w' = q
    | Client peer :: q =>
        let c := next_handle w in
        let accepted :=
          [Sys (Accept listener) (RConn c peer);
           Print ("[+] Incoming connection from " ++ PyStr.str_addr peer)] in
        match head_fault (faults w OpConnect) with
        | None =>
            exists w',
              forward_round listener remote_ip remote_port tt w
              = (Ret (Continue tt), w')
              /\ trace w' =
                 (trace w ++ accepted ++
                  [Sys (CreateConnection (remote_ip, remote_port) 10) (RSock (S c));
                   Start (Pipe c (S c));
                   Start (Pipe (S c) c)])%list
              /\ clients w' = q
        | Some reason =>
            let failed :=
              [Sys (CreateConnection (remote_ip, remote_port) 10)
                   (Raised (OSError reason));
               Print ("[!] Failed connecting to " ++ remote_ip ++ ":"
                      ++ PyStr.str remote_port ++ " - " ++ reason);
               Sys (Close c) (answer_of (head_fault (faults w OpClose)))] in
            exists w',
              forward_round listener remote_ip remote_port tt w
              = (match head_fault (faults w OpClose) with
                 | None => Ret (Continue tt)
                 | Some r => Raise (OSError r)
                 end, w')
              /\ trace w' = (trace w ++ accepted ++ failed)%list
              /\ clients w' = q
        end
    end.
Proof.
  intros listener remote_ip remote_port w.
  unfold forward_round, bind, accept.
  destruct (clients w) as [|[peer|reason] q] eqn:E.
  - reflexivity.
  - unfold log, print, try_except, create_connection, syscall_sock, next_fault.
    simpl.
    destruct (faults w OpConnect) as [|[reason|] cq] eqn:Ec; simpl.
    + eexists. repeat split. simpl. repeat rewrite <- app_assoc. reflexivity.
    + unfold bind, close, syscall, next_fault. simpl.
      destruct (faults w OpClose) as [|[r|] xq] eqn:Ex; simpl;
        eexists; repeat split; simpl; repeat rewrite <- app_assoc; reflexivity.
    + eexists. repeat split. simpl. repeat rewrite <- app_assoc. reflexivity.
  - eexists. repeat split.
Qed.

Lemma forward_round_shrinks listener remote_ip remote_port :
  forall s w s' w',
    forward_round listener remote_ip remote_port s w = (Ret (Continue s'), w') ->
    (List.length (clients w') < List.length (clients w))%nat.
Proof.
  intros [] w s' w' H.
  pose proof (forward_round_cases listener remote_ip remote_port w) as C.
  destruct (clients w) as [|[peer|reason] q]; simpl in *.
  - congruence.
  - destruct (head_fault (faults w OpConnect));
      destruct C as (w1 & Hr & _ & Hq); rewrite Hr in H;
      injection H as _ <-; rewrite Hq; lia.
  - destruct C as (w1 & Hr & _). congruence.
Qed.

(** The accept loop, one round at a time. *)
Lemma forward_loop_unfold listener remote_ip remote_port w :
  forward_loop listener remote_ip remote_port w =
  match forward_round listener remote_ip remote_port tt w with
  | (Ret (Continue _), w') => forward_loop listener remote_ip remote_port w'
  | (Ret (Break _), w') => (Ret tt, w')
  | (Raise e, w') => (Raise e, w')
  | (Blocked, w') => (Blocked, w')
  | (OutOfFuel, w') => (OutOfFuel, w')
  end.
Proof.
  unfold forward_loop. rewrite loop_unfold.
  - destruct (forward_round listener remote_ip remote_port tt w)
      as [[[[]|[]]|e| |] w']; reflexivity.
  - apply forward_round_shrinks.
Qed.

(** The accept loop neither creates nor binds a socket, and it never
    returns: it blocks in accept() or is ended by an exception. *)
Lemma forward_rounds_no_setup listener remote_ip remote_port :
  forall fuel w,
    (List.length (clients w) < fuel)%nat ->
    exists evs r w',
      while_true fuel (forward_round listener remote_ip remote_port) tt w = (r, w')
      /\ trace w' = (trace w ++ evs)%list
      /\ forallb not_setup evs = true
      /\ (r = Blocked \/ exists e, r = Raise e).
Proof.
  induction fuel as [|fuel IH]; intros w Hf; [lia|].
  rewrite while_true_S.
  pose proof (forward_round_cases listener remote_ip remote_port w) as C.
  destruct (clients w) as [|[peer|reason] q] eqn:E; simpl in *.
  - rewrite C. exists [], Blocked, w. rewrite app_nil_r. auto.
  - destruct (head_fault (faults w OpConnect)) as [reason|].
    + destruct C as (w1 & Hr & Ht & Hq). rewrite Hr.
      destruct (head_fault (faults w OpClose)) as [r|].
      * eexists _, _, w1. repeat split; [exact Ht|reflexivity|eauto].
      * destruct (IH w1) as (evs & r & w' & Hrun & Ht' & Hs & Hend);
          [rewrite Hq; lia|].
        rewrite Hrun. eexists _, r, w'. repeat split; [|
          |exact Hend].
        -- rewrite Ht', Ht, <- app_assoc. reflexivity.
        -- rewrite forallb_app. simpl. exact Hs.
    + destruct C as (w1 & Hr & Ht & Hq). rewrite Hr.
      destruct (IH w1) as (evs & r & w' & Hrun & Ht' & Hs & Hend);
        [rewrite Hq; lia|].
      rewrite Hrun. eexists _, r, w'. repeat split; [| |exact Hend].
      * rewrite Ht', Ht, <- app_assoc. reflexivity.
      * rewrite forallb_app. simpl. exact Hs.
  - destruct C as (w1 & Hr & Ht & Hq). rewrite Hr.
    eexists _, _, w1. repeat split; [exact Ht|reflexivity|eauto].
Qed.

(** ** The terminal: [main] *)

(** One round of the input loop, case by case on the line typed. *)
Lemma read_mapping_cases :
  forall remote_ip mappings w,
    match stdin w with
    | [] =>
        read_mapping remote_ip mappings w
        = (Raise EOFError, emit (Input mapping_prompt None) w)
    | line :: rest =>
        let w1 := emit (Input mapping_prompt (Some line)) (set_stdin rest w) in
        let entry := PyStr.strip line in
        if PyStr.is_empty entry
        then read_mapping remote_ip mappings w = (Ret (Break mappings), w1)
        else
          match PyStr.split entry with
          | [local_ip; p; q] =>
              match PyStr.int p, PyStr.int q with
              | Some local_port, Some remote_port =>
                  read_mapping remote_ip mappings w
                  = (Ret (Continue
                            (mappings ++
                             [(local_ip, local_port, remote_ip, remote_port)])%list),
                     emit (Print ("[+] Added: " ++ local_ip ++ ":"
                                  ++ PyStr.str local_port ++ " → " ++ remote_ip
                                  ++ ":" ++ PyStr.str remote_port)) w1)
              | _, _ =>
                  read_mapping remote_ip mappings w
                  = (Ret (Continue mappings),
                     emit (Print "Port numbers must be integers.") w1)
              end
          | _ =>
              read_mapping remote_ip mappings w
              = (Ret (Continue mappings),
                 emit (Print "Format must be: local_ip local_port remote_port") w1)
          end
    end.
Proof.
  intros remote_ip mappings w. unfold read_mapping, bind, input.
  destruct (stdin w) as [|line rest]; [reflexivity|].
  cbv zeta.
  destruct (PyStr.is_empty (PyStr.strip line)); [reflexivity|].
  destruct (PyStr.split (PyStr.strip line)) as [|a [|p [|q [|x l]]]];
    try reflexivity.
  unfold try_except, int, bind. simpl.
  destruct (PyStr.int p); [|reflexivity].
  destruct (PyStr.int q); reflexivity.
Qed.

Lemma read_mapping_shrinks remote_ip :
  forall mappings w mappings' w',
    read_mapping remote_ip mappings w = (Ret (Continue mappings'), w') ->
    (List.length (stdin w') < List.length (stdin w))%nat.
Proof.
  intros mappings w mappings' w' H.
  pose proof (read_mapping_cases remote_ip mappings w) as C.
  destruct (stdin w) as [|line rest]; [congruence|].
  cbv zeta in C.
  destruct (PyStr.is_empty (PyStr.strip line)); [congruence|].
  destruct (PyStr.split (PyStr.strip line)) as [|a [|p [|q [|x l]]]];
    try (rewrite C in H; injection H as _ <-; simpl; lia).
  destruct (PyStr.int p); [destruct (PyStr.int q)|];
    rewrite C in H; injection H as _ <-; simpl; lia.
Qed.

(** The input loop, one round at a time. *)
Lemma read_mappings_unfold remote_ip mappings w :
  read_mappings_from remote_ip mappings w =
  match read_mapping remote_ip mappings w with
  | (Ret (Continue mappings'), w') => read_mappings_from remote_ip mappings' w'
  | (Ret (Break mappings'), w') => (Ret mappings', w')
  | (Raise e, w') => (Raise e, w')
  | (Blocked, w') => (Blocked, w')
  | (OutOfFuel, w') => (OutOfFuel, w')
  end.
Proof.
  unfold read_mappings_from. apply loop_unfold. apply read_mapping_shrinks.
Qed.

(** A round of the input loop prints and asks, nothing else, and the first
    thing it does is to ask. *)
Lemma read_mapping_console remote_ip mappings w :
  exists line evs,
    trace (snd (read_mapping remote_ip mappings w))
    = (trace w ++ Input mapping_prompt line :: evs)%list
    /\ forallb is_console evs = true.
Proof.
  pose proof (read_mapping_cases remote_ip mappings w) as C.
  destruct (stdin w) as [|line rest].
  { rewrite C. exists None, []. split; reflexivity. }
  cbv zeta in C. exists (Some line).
  destruct (PyStr.is_empty (PyStr.strip line)).
  { rewrite C. exists []. split; reflexivity. }
  destruct (PyStr.split (PyStr.strip line)) as [|a [|p [|q [|x l]]]];
    try (rewrite C; eexists [_]; split;
         [simpl; rewrite <- app_assoc; reflexivity|reflexivity]).
  destruct (PyStr.int p); [destruct (PyStr.int q)|];
    rewrite C; eexists [_]; split;
    try (simpl; rewrite <- app_assoc; reflexivity); reflexivity.
Qed.

Lemma read_rounds_console remote_ip :
  forall fuel mappings w,
    exists evs,
      trace (snd (while_true fuel (read_mapping remote_ip) mappings w))
      = (trace w ++ evs)%list
      /\ forallb is_console evs = true.
Proof.
  induction fuel as [|fuel IH]; intros mappings w.
  { exists []. simpl. rewrite app_nil_r. auto. }
  rewrite while_true_S.
  destruct (read_mapping_console remote_ip mappings w) as (line & evs & Ht & Hc).
  destruct (read_mapping remote_ip mappings w) as [[[ms|ms]|e| |] w1];
    simpl in Ht |- *;
    try (eexists; split; [exact Ht|exact Hc]).
  destruct (IH ms w1) as (evs' & Ht' & Hc').
  exists (Input mapping_prompt line :: evs ++ evs'). split.
  - rewrite Ht', Ht, <- app_assoc. reflexivity.
  - simpl. rewrite forallb_app, Hc, Hc'. reflexivity.
Qed.

(** Printing lines changes the trace only. *)
Lemma for_each_print lines :
  forall w,
    exists w',
      for_each lines print w = (Ret tt, w')
      /\ trace w' = (trace w ++ map Print lines)%list
      /\ stdin w' = stdin w.
Proof.
  induction lines as [|l lines IH]; intros w; simpl.
  - exists w. rewrite app_nil_r. auto.
  - unfold bind, print at 1.
    destruct (IH (emit (Print l) w)) as (w' & Hr & Ht & Hs).
    exists w'. rewrite Hr, Ht, Hs. simpl. rewrite <- app_assoc. auto.
Qed.

(** Starting the threads of the mappings changes the trace only. *)
Lemma for_each_start mappings (f : mapping -> M unit) :
  (forall m w, f m w = start_thread (forwarder_of m) w) ->
  forall w,
    exists w',
      for_each mappings f w = (Ret tt, w')
      /\ trace w' = (trace w ++ map (fun m => Start (forwarder_of m)) mappings)%list.
Proof.
  intros Hf. induction mappings as [|m ms IH]; intros w; simpl.
  - exists w. rewrite app_nil_r. auto.
  - unfold bind. rewrite Hf. unfold start_thread at 1.
    destruct (IH (emit (Start (forwarder_of m)) w)) as (w' & Hr & Ht).
    exists w'. rewrite Hr, Ht. simpl. rewrite <- app_assoc. auto.
Qed.

(** The keep-alive loop starts nothing. *)
Lemma keep_alive_rounds :
  forall fuel w,
    exists tail,
      trace (snd (while_true fuel
                    (fun _ : unit => wait 3600 ;; ret (Continue tt)) tt w))
      = (trace w ++ tail)%list
      /\ forallb not_start tail = true.
Proof.
  induction fuel as [|fuel IH]; intros w.
  { exists []. simpl. rewrite app_nil_r. auto. }
  rewrite while_true_S. unfold bind at 1, wait at 1.
  destruct (signals w) as [|[|] q].
  - exists []. simpl. rewrite app_nil_r. auto.
  - exists []. simpl. rewrite app_nil_r. auto.
  - cbv beta iota. unfold ret at 1. cbv beta iota.
    destruct (IH (emit (Wait 3600) (set_signals q w))) as (tail & Ht & Hs).
    exists (Wait 3600 :: tail). rewrite Ht. simpl. rewrite <- app_assoc. auto.
Qed.

(** ** The claims about the relay *)

(** A trace that ends with close() on two handles has both closed. *)
Lemma closed_at_end src dst tr c1 c2 :
  is_closed src (tr ++ [Sys (Close src) c1; Sys (Close dst) c2]) = true
  /\ is_closed dst (tr ++ [Sys (Close src) c1; Sys (Close dst) c2]) = true.
Proof.
  rewrite !is_closed_app. simpl. rewrite !Nat.eqb_refl. simpl.
  split; [apply orb_true_r|].
  destruct (Nat.eqb dst src); simpl; apply orb_true_r.
Qed.

(** C1 (paired closure).  Every run of [pipe] returns, and whatever ended its
    copy loop -- a read that returned nothing, a read that raised or a write
    that raised -- the last two calls it made are close() on the source and
    close() on the destination: both handles are closed once it has
    returned. *)
Theorem pipe_closes_both_handles :
  forall src dst w,
    exists io ending c1 c2 w',
      pipe src dst w = (Ret tt, w')
      /\ copy_run src dst io ending
      /\ trace w' = (trace w ++ io ++ [Sys (Close src) c1; Sys (Close dst) c2])%list
      /\ is_closed src (trace w') = true
      /\ is_closed dst (trace w') = true.
Proof.
  intros src dst w.
  destruct (pipe_run src dst w) as (io & r & w' & Hrun & Hio & Htr & _).
  eexists io, r, _, _, w'. conjuncts; try eassumption;
    rewrite Htr, app_assoc; apply closed_at_end.
Qed.

(** C2 (order and content preservation).  The calls of the copy loop of
    [pipe] are reads of 65535 bytes from the source, each followed by a write
    to the destination of exactly the chunk the read returned, until a read
    returns nothing or a call raises.  So the chunks written are the chunks
    read, in the same order, each of 1 to 65535 bytes; put end to end they
    are the front of what arrived on the source, and all of it when the loop
    ended at the end of the stream; the two close() calls that follow read
    and write nothing. *)
Theorem pipe_writes_what_it_reads :
  forall src dst w,
    exists io ending closing w',
      pipe src dst w = (Ret tt, w')
      /\ trace w' = (trace w ++ io ++ closing)%list
      /\ copy_run src dst io ending
      /\ chunks_written io = map (fun data => (dst, data)) (chunks_read io)
      /\ Forall (fun rd => rd = (src, 65535)) (reads io)
      /\ Forall (fun data => data <> [] /\ Z.of_nat (List.length data) <= 65535)
                (chunks_read io)
      /\ (exists unread,
             arrived (incoming w)
             = (List.concat (map snd (chunks_written io)) ++ unread)%list
             /\ (ending = Ret tt -> unread = []))
      /\ chunks_written closing = [] /\ reads closing = [].
Proof.
  intros src dst w.
  destruct (pipe_run src dst w)
    as (io & r & w' & Hrun & Hio & Htr & unread & Hu & Hall).
  destruct (chunks_of_run src dst io r Hio) as (Hw & Hr & Hc).
  eexists io, r, _, w'. conjuncts; try eassumption; try reflexivity.
  exists unread. split; [|exact Hall].
  rewrite Hw, map_map. cbn [snd]. rewrite map_id. exact Hu.
Qed.

(** C6 (close never ends a relay).  The cleanup of [pipe] calls close() on
    both handles and returns normally whatever the two calls answer: when
    the first raises, the second is still made, and no exception leaves the
    cleanup.  Hence [pipe] itself always returns normally, and so does the
    other copy task of the pair when it closes the same two handles again. *)
Theorem pipe_cleanup_never_raises :
  forall src dst w,
    (exists w',
        pipe_cleanup src dst w = (Ret tt, w')
        /\ trace w' =
           (trace w ++
            [Sys (Close src) (answer_of (head_fault (faults w OpClose)));
             Sys (Close dst) (answer_of (head_fault (tl (faults w OpClose))))])%list)
    /\ (exists w1 w2,
           pipe src dst w = (Ret tt, w1)
           /\ pipe dst src w1 = (Ret tt, w2)
           /\ is_closed src (trace w1) = true
           /\ is_closed dst (trace w1) = true).
Proof.
  intros src dst w. split.
  - apply pipe_cleanup_run.
  - destruct (pipe_run src dst w) as (io & r & w1 & Hrun & Hio & Htr & _).
    destruct (pipe_run dst src w1) as (io' & r' & w2 & Hrun' & _).
    exists w1, w2. conjuncts; try assumption;
      rewrite Htr, app_assoc; apply closed_at_end.
Qed.

(** ** The claims about the listener *)

(** The setup of [start_forwarder] when none of its four calls fails. *)
Lemma start_forwarder_setup :
  forall local_ip local_port remote_ip remote_port w,
    0 <= local_port <= 65535 ->
    no_fault OpSocket w -> no_fault OpSetsockopt w ->
    no_fault OpBind w -> no_fault OpListen w ->
    let listener := next_handle w in
    exists w1,
      start_forwarder local_ip local_port remote_ip remote_port w
      = forward_loop listener remote_ip remote_port w1
      /\ trace w1 =
         (trace w ++
          [Sys (Socket AF_INET SOCK_STREAM) (RSock listener);
           Sys (Setsockopt listener SOL_SOCKET SO_REUSEADDR 1) RNone;
           Sys (Bind listener (local_ip, local_port)) RNone;
           Sys (Listen listener 50) RNone;
           Print (forwarding_line local_ip local_port remote_ip remote_port)])%list
      /\ clients w1 = clients w.
Proof.
  intros local_ip local_port remote_ip remote_port w Hport Hs Ho Hb Hl.
  unfold no_fault, head_fault in *.
  unfold start_forwarder, bind, socket, syscall_sock, setsockopt, bind_to,
    listen, syscall, next_fault, log, print.
  cbn [snd].
  assert ((0 <=? local_port) && (local_port <=? 65535) = true) as ->
    by (apply andb_true_iff; split; apply Z.leb_le; lia).
  destruct (faults w OpSocket) as [|[?|] ?]; simpl in *; try discriminate;
    destruct (faults w OpSetsockopt) as [|[?|] ?]; simpl in *; try discriminate;
    destruct (faults w OpBind) as [|[?|] ?]; simpl in *; try discriminate;
    destruct (faults w OpListen) as [|[?|] ?]; simpl in *; try discriminate;
    eexists; (split; [reflexivity|]); simpl;
    repeat rewrite <- app_assoc; split; reflexivity.
Qed.

(** The setup of [start_forwarder] when bind() fails. *)
Lemma start_forwarder_bind_fails :
  forall local_ip local_port remote_ip remote_port w,
    no_fault OpSocket w -> no_fault OpSetsockopt w ->
    (local_port < 0 \/ 65535 < local_port
     \/ exists reason, head_fault (faults w OpBind) = Some reason) ->
    let listener := next_handle w in
    exists e w',
      start_forwarder local_ip local_port remote_ip remote_port w = (Raise e, w')
      /\ trace w' =
         (trace w ++
          [Sys (Socket AF_INET SOCK_STREAM) (RSock listener);
           Sys (Setsockopt listener SOL_SOCKET SO_REUSEADDR 1) RNone;
           Sys (Bind listener (local_ip, local_port)) (Raised e)])%list
      /\ clients w' = clients w.
Proof.
  intros local_ip local_port remote_ip remote_port w Hs Ho Hb.
  unfold no_fault, head_fault in *.
  unfold start_forwarder, bind, socket, syscall_sock, setsockopt, bind_to,
    listen, syscall, next_fault, log, print.
  cbn [snd].
  destruct ((0 <=? local_port) && (local_port <=? 65535)) eqn:Hport.
  - destruct Hb as [Hb|[Hb|[reason Hb]]];
      try (apply andb_true_iff in Hport; destruct Hport as [H1 H2];
           apply Z.leb_le in H1, H2; lia).
    destruct (faults w OpSocket) as [|[?|] ?]; simpl in *; try discriminate;
      destruct (faults w OpSetsockopt) as [|[?|] ?]; simpl in *; try discriminate;
      destruct (faults w OpBind) as [|[?|] ?]; simpl in *; try discriminate;
      eexists _, _; (split; [reflexivity|]); simpl;
      repeat rewrite <- app_assoc; split; reflexivity.
  - destruct (faults w OpSocket) as [|[?|] ?]; simpl in *; try discriminate;
      destruct (faults w OpSetsockopt) as [|[?|] ?]; simpl in *; try discriminate;
      eexists _, _; (split; [reflexivity|]); simpl;
      repeat rewrite <- app_assoc; split; reflexivity.
Qed.

(** The accept loop extends the trace, and with nothing that sets a socket
    up. *)
Lemma forward_loop_no_setup listener remote_ip remote_port w :
  exists evs r w',
    forward_loop listener remote_ip remote_port w = (r, w')
    /\ trace w' = (trace w ++ evs)%list
    /\ forallb not_setup evs = true
    /\ (r = Blocked \/ exists e, r = Raise e).
Proof.
  unfold forward_loop, loop. apply forward_rounds_no_setup. lia.
Qed.


(** [main] starts one thread per mapping, in order, whatever becomes of
    the threads started before, and starts no other. *)
Lemma start_all_threads mappings w :
  mappings <> [] ->
  exists tail,
    trace (snd (start_all mappings w))
    = (trace w
       ++ Print (PyStr.nl ++ "[+] Starting all forwards..." ++ PyStr.nl)
       :: map (fun m => Start (forwarder_of m)) mappings
       ++ Print ("[+] All mappings active. Press Ctrl+C to stop." ++ PyStr.nl)
       :: tail)%list
    /\ forallb not_start tail = true.
Proof.
  intros Hne. unfold start_all.
  destruct mappings as [|m ms]; [congruence|].
  cbv beta iota delta [is_nil]. unfold bind at 1, print at 1.
  set (w1 := emit _ w).
  unfold bind at 1.
  match goal with
  | |- context [for_each (m :: ms) ?f w1] =>
      destruct (for_each_start (m :: ms) f) with (w := w1) as (w2 & Hr & Ht);
        [intros [[[? ?] ?] ?] ?; reflexivity|]
  end.
  rewrite Hr.
  unfold bind at 1, print at 1.
  set (w3 := emit _ w2).
  unfold try_except, keep_alive, loop.
  destruct (keep_alive_rounds (S (List.length (signals w3))) w3) as (tail & Hk & Hs).
  destruct (while_true _ _ tt w3) as [r wk]. cbn [snd] in Hk.
  assert (trace w3 =
          (trace w
           ++ Print (PyStr.nl ++ "[+] Starting all forwards..." ++ PyStr.nl)
           :: map (fun m => Start (forwarder_of m)) (m :: ms)
           ++ [Print ("[+] All mappings active. Press Ctrl+C to stop." ++ PyStr.nl)])%list)
    as H3.
  { subst w3 w1. rewrite trace_emit, Ht, trace_emit. trace_assoc. }
  destruct r as [[]|e| |];
    try (exists tail; split; [|exact Hs]; cbn [snd]; rewrite Hk, H3;
         trace_assoc).
  destruct (is_KeyboardInterrupt e).
  - exists (tail ++ [Print (PyStr.nl ++ "[+] Stopping.")])%list. split.
    + unfold print. cbn [snd]. rewrite trace_emit, Hk, H3. trace_assoc.
    + rewrite forallb_app, Hs. reflexivity.
  - exists tail; split; [|exact Hs]. cbn [snd]. rewrite Hk, H3. trace_assoc.
Qed.

(** An exception that leaves the target of a thread ends the thread, and is
    reported by the interpreter. *)
Lemma run_thread_uncaught t w e w' :
  thread_body t w = (Raise e, w') ->
  run_thread t w = (Ret tt, emit (Uncaught e) w').
Proof. intros H. unfold run_thread, try_except. rewrite H. reflexivity. Qed.

(** No exception leaves a thread. *)
Lemma run_thread_contains t w e : fst (run_thread t w) <> Raise e.
Proof.
  unfold run_thread, try_except.
  destruct (thread_body t w) as [[[]|e'| |] w']; simpl; discriminate.
Qed.

(** C3, as the code has it (accept failure).  An error raised by accept()
    is not caught in [start_forwarder]: the exception leaves the accept loop
    and ends the listener.  The loop logs nothing about it, and the
    connections that knock afterwards are not accepted.  The thread of the
    listener ends there, with the interpreter's report of the exception. *)
Theorem accept_failure_ends_listener :
  forall listener remote_ip remote_port w reason rest,
    clients w = AcceptFails reason :: rest ->
    (exists w',
        forward_loop listener remote_ip remote_port w = (Raise (OSError reason), w')
        /\ trace w' =
           (trace w ++ [Sys (Accept listener) (Raised (OSError reason))])%list
        /\ clients w' = rest)
    /\ (forall local_ip local_port w0 e w1,
           start_forwarder local_ip local_port remote_ip remote_port w0
           = (Raise e, w1) ->
           run_thread (Forwarder local_ip local_port remote_ip remote_port) w0
           = (Ret tt, emit (Uncaught e) w1)).
Proof.
  intros listener remote_ip remote_port w reason rest Hc. split.
  - rewrite forward_loop_unfold.
    pose proof (forward_round_cases listener remote_ip remote_port w) as C.
    rewrite Hc in C. destruct C as (w' & Hr & Ht & Hq).
    rewrite Hr. exists w'. auto.
  - intros local_ip local_port w0 e w1 H. apply run_thread_uncaught. exact H.
Qed.

Lemma accept_failure_ends_listener_witness :
  exists w',
    forward_loop 3%nat "203.0.113.5" 22 knocks_accept_fails
    = (Raise (OSError "[Errno 24] Too many open files"), w')
    /\ trace w' =
       [Sys (Accept 3%nat) (Raised (OSError "[Errno 24] Too many open files"))]
    /\ clients w' = [Client ("10.0.0.2", 7777)].
Proof.
  apply (accept_failure_ends_listener 3%nat "203.0.113.5" 22
           knocks_accept_fails).
  reflexivity.
Defined.

(** C3, as the claim has it, fails: accept() raises for the first client,
    and [start_forwarder] ends with that exception.  Its thread is over: the
    failed call is the last it made, nothing was logged after it but the
    interpreter's report, and the second client is never accepted. *)
Lemma accept_failure_is_fatal :
  fst run_accept_fails = Raise (OSError "[Errno 24] Too many open files")
  /\ fst thread_accept_fails = Ret tt
  /\ trace (snd thread_accept_fails) =
     [Sys (Socket AF_INET SOCK_STREAM) (RSock 3%nat);
      Sys (Setsockopt 3%nat SOL_SOCKET SO_REUSEADDR 1) RNone;
      Sys (Bind 3%nat ("127.0.0.1", 2222)) RNone;
      Sys (Listen 3%nat 50) RNone;
      Print "[+] Forwarding 127.0.0.1:2222  --->  203.0.113.5:22";
      Sys (Accept 3%nat) (Raised (OSError "[Errno 24] Too many open files"));
      Uncaught (OSError "[Errno 24] Too many open files")]
  /\ clients (snd thread_accept_fails) = [Client ("10.0.0.2", 7777)].
Proof. vm_compute. conjuncts; reflexivity. Qed.




(** C5, as the code has it (bind failure).  When bind() fails -- the system
    refuses, or the port is outside 0..65535 -- the exception leaves
    [start_forwarder] at once: bind() is the last call of the thread, which
    prints nothing, neither listens nor accepts, and does not try again; the
    thread ends with the interpreter's report of the exception.  [main] for
    its part starts one thread per mapping, in order, without looking at
    what becomes of any of them, and no exception leaves a thread. *)
Theorem bind_failure_ends_listener :
  forall local_ip local_port remote_ip remote_port w,
    no_fault OpSocket w -> no_fault OpSetsockopt w ->
    (local_port < 0 \/ 65535 < local_port
     \/ exists reason, head_fault (faults w OpBind) = Some reason) ->
    (exists e w',
        start_forwarder local_ip local_port remote_ip remote_port w = (Raise e, w')
        /\ run_thread (Forwarder local_ip local_port remote_ip remote_port) w
           = (Ret tt, emit (Uncaught e) w')
        /\ trace w' =
           (trace w ++
            [Sys (Socket AF_INET SOCK_STREAM) (RSock (next_handle w));
             Sys (Setsockopt (next_handle w) SOL_SOCKET SO_REUSEADDR 1) RNone;
             Sys (Bind (next_handle w) (local_ip, local_port)) (Raised e)])%list
        /\ clients w' = clients w)
    /\ (forall mappings w0,
           mappings <> [] ->
           exists tail,
             trace (snd (start_all mappings w0))
             = (trace w0
                ++ Print (PyStr.nl ++ "[+] Starting all forwards..." ++ PyStr.nl)
                :: map (fun m => Start (forwarder_of m)) mappings
                ++ Print ("[+] All mappings active. Press Ctrl+C to stop."
                          ++ PyStr.nl)
                :: tail)%list
             /\ forallb not_start tail = true)
    /\ (forall t w0 e, fst (run_thread t w0) <> Raise e).
Proof.
  intros local_ip local_port remote_ip remote_port w Hs Ho Hb. conjuncts.
  - destruct (start_forwarder_bind_fails local_ip local_port remote_ip
                remote_port w Hs Ho Hb) as (e & w' & Hr & Ht & Hq).
    exists e, w'. conjuncts; try assumption.
    apply run_thread_uncaught. exact Hr.
  - intros mappings w0. apply start_all_threads.
  - apply run_thread_contains.
Qed.

Lemma bind_failure_ends_listener_witness :
  exists e w',
    start_forwarder "127.0.0.1" 2222 "203.0.113.5" 22 port_taken = (Raise e, w')
    /\ run_thread (Forwarder "127.0.0.1" 2222 "203.0.113.5" 22) port_taken
       = (Ret tt, emit (Uncaught e) w')
    /\ trace w' =
       [Sys (Socket AF_INET SOCK_STREAM) (RSock 3%nat);
        Sys (Setsockopt 3%nat SOL_SOCKET SO_REUSEADDR 1) RNone;
        Sys (Bind 3%nat ("127.0.0.1", 2222)) (Raised e)]
    /\ clients w' = [Client ("10.0.0.1", 5555)].
Proof.
  apply (bind_failure_ends_listener "127.0.0.1" 2222 "203.0.113.5" 22 port_taken);
    [reflexivity|reflexivity|].
  right. right. eexists. reflexivity.
Defined.

(** C5, as the claim has it, fails: the port is taken, bind() raises, and
    [start_forwarder] ends with that exception without having printed
    anything.  Nothing is logged, on this run or later: the thread is over
    and the one line about the failure is the interpreter's report. *)
Lemma bind_failure_is_not_logged :
  fst run_port_taken = Raise (OSError "[Errno 98] Address already in use")
  /\ filter is_print (trace (snd thread_port_taken)) = []
  /\ fst thread_port_taken = Ret tt
  /\ trace (snd thread_port_taken) =
     [Sys (Socket AF_INET SOCK_STREAM) (RSock 3%nat);
      Sys (Setsockopt 3%nat SOL_SOCKET SO_REUSEADDR 1) RNone;
      Sys (Bind 3%nat ("127.0.0.1", 2222))
          (Raised (OSError "[Errno 98] Address already in use"));
      Uncaught (OSError "[Errno 98] Address already in use")].
Proof. vm_compute. conjuncts; reflexivity. Qed.

(** C9 (bind configuration).  When the setup of a mapping succeeds, the
    first calls of [start_forwarder] are, in this order: one stream socket
    created, SO_REUSEADDR set to 1 on it, the socket bound to the local
    address and port of the mapping, listen() with a backlog of 50, and the
    log line.  Everything that follows, every accept() included, comes after
    them, and creates, configures, binds or listens on no socket. *)
Theorem listener_is_bound_once_before_accepting :
  forall local_ip local_port remote_ip remote_port w,
    0 <= local_port <= 65535 ->
    no_fault OpSocket w -> no_fault OpSetsockopt w ->
    no_fault OpBind w -> no_fault OpListen w ->
    exists evs r w',
      start_forwarder local_ip local_port remote_ip remote_port w = (r, w')
      /\ trace w' =
         (trace w ++
          [Sys (Socket AF_INET SOCK_STREAM) (RSock (next_handle w));
           Sys (Setsockopt (next_handle w) SOL_SOCKET SO_REUSEADDR 1) RNone;
           Sys (Bind (next_handle w) (local_ip, local_port)) RNone;
           Sys (Listen (next_handle w) 50) RNone;
           Print (forwarding_line local_ip local_port remote_ip remote_port)]
          ++ evs)%list
      /\ forallb not_setup evs = true.
Proof.
  intros local_ip local_port remote_ip remote_port w Hp Hs Ho Hb Hl.
  destruct (start_forwarder_setup local_ip local_port remote_ip remote_port w
              Hp Hs Ho Hb Hl) as (w1 & Hrun & Ht & _).
  destruct (forward_loop_no_setup (next_handle w) remote_ip remote_port w1)
    as (evs & r & w' & Hloop & Ht' & Hn & _).
  exists evs, r, w'. rewrite Hrun, Hloop, Ht', Ht.
  repeat split; [rewrite <- app_assoc; reflexivity|exact Hn].
Qed.

Lemma listener_is_bound_once_before_accepting_witness :
  exists evs r w',
    start_forwarder "127.0.0.1" 2222 "203.0.113.5" 22 knocks_dial_refused = (r, w')
    /\ trace w' =
       ([Sys (Socket AF_INET SOCK_STREAM) (RSock 3%nat);
         Sys (Setsockopt 3%nat SOL_SOCKET SO_REUSEADDR 1) RNone;
         Sys (Bind 3%nat ("127.0.0.1", 2222)) RNone;
         Sys (Listen 3%nat 50) RNone;
         Print "[+] Forwarding 127.0.0.1:2222  --->  203.0.113.5:22"]
        ++ evs)%list
    /\ forallb not_setup evs = true.
Proof.
  apply (listener_is_bound_once_before_accepting
           "127.0.0.1" 2222 "203.0.113.5" 22 knocks_dial_refused);
    [lia|reflexivity..].
Defined.

(** ** The claims about the terminal *)

Lemma is_empty_true s : PyStr.is_empty s = true -> s = EmptyString.
Proof. destruct s; [reflexivity|discriminate]. Qed.

Lemma console_prints lines : forallb is_console (map Print lines) = true.
Proof. induction lines; simpl; auto. Qed.

(** Whatever the list and the world, the input loop begins by asking for a
    mapping, and does nothing but print and ask. *)
Lemma read_mappings_asks_first remote_ip mappings w :
  exists answer evs,
    trace (snd (read_mappings_from remote_ip mappings w))
    = (trace w ++ Input mapping_prompt answer :: evs)%list
    /\ forallb is_console evs = true.
Proof.
  unfold read_mappings_from, loop. rewrite while_true_S.
  destruct (read_mapping_console remote_ip mappings w) as (line & evs & Ht & Hc).
  destruct (read_mapping remote_ip mappings w) as [[[ms|ms]|e| |] w1];
    cbn [snd] in Ht |- *;
    try (exists line, evs; split; [exact Ht|exact Hc]).
  destruct (read_rounds_console remote_ip (List.length (stdin w)) ms w1)
    as (evs' & Ht' & Hc').
  exists line, (evs ++ evs')%list. split.
  - rewrite Ht', Ht. trace_assoc.
  - rewrite forallb_app, Hc, Hc'. reflexivity.
Qed.

(** C8 (malformed entries).  For a line typed at the mapping prompt: a line
    that is empty once stripped ends the input loop with the list as it is;
    a line with a number of tokens other than three, or with three tokens of
    which one of the last two is no integer, prints its message and the loop
    goes on with the list unchanged; a line with three tokens of which the
    last two are integers appends exactly one mapping and the loop goes on.
    Going on, the loop asks for a mapping again first thing. *)
Theorem malformed_entries_are_rejected :
  forall remote_ip mappings line rest w,
    stdin w = line :: rest ->
    let entry := PyStr.strip line in
    let asked := emit (Input mapping_prompt (Some line)) (set_stdin rest w) in
    (PyStr.is_empty entry = true ->
     read_mappings_from remote_ip mappings w = (Ret mappings, asked))
    /\ (PyStr.is_empty entry = false ->
        List.length (PyStr.split entry) <> 3%nat ->
        read_mappings_from remote_ip mappings w
        = read_mappings_from remote_ip mappings
            (emit (Print "Format must be: local_ip local_port remote_port") asked))
    /\ (forall local_ip p q,
           PyStr.split entry = [local_ip; p; q] ->
           PyStr.int p = None \/ PyStr.int q = None ->
           read_mappings_from remote_ip mappings w
           = read_mappings_from remote_ip mappings
               (emit (Print "Port numbers must be integers.") asked))
    /\ (forall local_ip p q local_port remote_port,
           PyStr.split entry = [local_ip; p; q] ->
           PyStr.int p = Some local_port ->
           PyStr.int q = Some remote_port ->
           read_mappings_from remote_ip mappings w
           = read_mappings_from remote_ip
               (mappings ++ [(local_ip, local_port, remote_ip, remote_port)])%list
               (emit (Print ("[+] Added: " ++ local_ip ++ ":"
                             ++ PyStr.str local_port ++ " → " ++ remote_ip
                             ++ ":" ++ PyStr.str remote_port)) asked))
    /\ (forall mappings' w',
           exists answer evs,
             trace (snd (read_mappings_from remote_ip mappings' w'))
             = (trace w' ++ Input mapping_prompt answer :: evs)%list
             /\ forallb is_console evs = true).
Proof.
  intros remote_ip mappings line rest w Hin entry asked.
  pose proof (read_mapping_cases remote_ip mappings w) as C.
  rewrite Hin in C. cbv zeta in C. fold entry asked in C.
  rewrite (read_mappings_unfold remote_ip mappings w).
  repeat split.
  - intros He. rewrite He in C. rewrite C. reflexivity.
  - intros He Hlen. rewrite He in C.
    destruct (PyStr.split entry) as [|a [|p [|q [|x l]]]];
      try (rewrite C; reflexivity).
    simpl in Hlen. congruence.
  - intros local_ip p q Hs Hint.
    destruct (PyStr.is_empty entry) eqn:He.
    { apply is_empty_true in He. rewrite He in Hs. discriminate. }
    rewrite Hs in C.
    destruct Hint as [Hp|Hq].
    + rewrite Hp in C. rewrite C. reflexivity.
    + rewrite Hq in C. destruct (PyStr.int p); rewrite C; reflexivity.
  - intros local_ip p q local_port remote_port Hs Hp Hq.
    destruct (PyStr.is_empty entry) eqn:He.
    { apply is_empty_true in He. rewrite He in Hs. discriminate. }
    rewrite Hs, Hp, Hq in C. rewrite C. reflexivity.
  - intros mappings' w'. apply read_mappings_asks_first.
Qed.

Lemma malformed_entries_are_rejected_witness :
  read_mappings_from "203.0.113.5" [] typed_bad_port
  = read_mappings_from "203.0.113.5" []
      (emit (Print "Port numbers must be integers.")
         (emit (Input mapping_prompt (Some "127.0.0.1 abc 22"))
            (set_stdin ["127.0.0.1 2222 22"; ""] typed_bad_port))).
Proof.
  apply (malformed_entries_are_rejected "203.0.113.5" [] "127.0.0.1 abc 22"
           ["127.0.0.1 2222 22"; ""] typed_bad_port eq_refl)
    with (local_ip := "127.0.0.1") (p := "abc") (q := "22").
  - reflexivity.
  - left. reflexivity.
Defined.

(** C7 (no mapping, no listener).  When the remote address is given and
    the input loop ends with an empty list, [main] prints its message and
    returns: everything it did was to print and to ask, so no socket call
    was made and no thread was started. *)
Theorem no_mappings_no_listener :
  forall w line w0 w1,
    (for_each banner print ;; input ip_prompt) w = (Ret line, w0) ->
    PyStr.is_empty (PyStr.strip line) = false ->
    read_mappings (PyStr.strip line) w0 = (Ret [], w1) ->
    main w = (Ret tt, emit (Print "No mappings defined. Exiting.") w1)
    /\ exists evs,
         trace w1 = (trace w ++ evs)%list /\ forallb is_console evs = true.
Proof.
  intros w line w0 w1 Hask Hip Hread.
  destruct (for_each_print banner w) as (wb & Hb & Htb & _).
  unfold bind in Hask. rewrite Hb in Hask.
  split.
  - unfold main, bind. rewrite Hb, Hask, Hip, Hread. reflexivity.
  - unfold input in Hask.
    destruct (stdin wb) as [|l q]; [discriminate|].
    injection Hask as -> <-.
    destruct (read_mappings_asks_first (PyStr.strip line) []
                (emit (Input ip_prompt (Some line)) (set_stdin q wb)))
      as (answer & evs & Ht & Hc).
    unfold read_mappings in Hread. rewrite Hread in Ht. cbn [snd] in Ht.
    exists (map Print banner ++ Input ip_prompt (Some line)
              :: Input mapping_prompt answer :: evs)%list.
    split.
    + rewrite Ht, trace_emit. cbn [trace set_stdin]. rewrite Htb. trace_assoc.
    + rewrite forallb_app, console_prints. simpl. exact Hc.
Qed.

Lemma no_mappings_no_listener_witness :
  main typed_no_mapping
  = (Ret tt,
     emit (Print "No mappings defined. Exiting.")
       (snd (read_mappings "203.0.113.5"
               (snd ((for_each banner print ;; input ip_prompt)
                       typed_no_mapping))))).
Proof.
  apply (no_mappings_no_listener typed_no_mapping " 203.0.113.5 "
           (snd ((for_each banner print ;; input ip_prompt) typed_no_mapping))
           (snd (read_mappings "203.0.113.5"
                   (snd ((for_each banner print ;; input ip_prompt)
                           typed_no_mapping)))));
    reflexivity.
Defined.

(** C10 (no remote address).  When the line typed at the first prompt is
    empty once stripped, [main] prints its message and returns, having
    printed the banner and asked that one question only: the lines typed
    after it are left unread, and no socket call or thread start is in the
    trace. *)
Theorem empty_remote_ip_exits :
  forall w line rest,
    stdin w = line :: rest ->
    PyStr.is_empty (PyStr.strip line) = true ->
    exists w',
      main w = (Ret tt, w')
      /\ trace w' =
         (trace w ++ map Print banner
          ++ [Input ip_prompt (Some line);
              Print "Remote IP is required. Exiting."])%list
      /\ stdin w' = rest.
Proof.
  intros w line rest Hin Hip.
  destruct (for_each_print banner w) as (wb & Hb & Htb & Hsb).
  unfold main, bind, input. rewrite Hb, Hsb, Hin, Hip.
  eexists. split; [reflexivity|]. split; [|reflexivity].
  unfold print. cbn [snd]. rewrite !trace_emit. cbn [trace set_stdin].
  rewrite Htb. trace_assoc.
Qed.

Lemma empty_remote_ip_exits_witness :
  exists w',
    main typed_no_ip = (Ret tt, w')
    /\ trace w' =
       (map Print banner
        ++ [Input ip_prompt (Some "   ");
            Print "Remote IP is required. Exiting."])%list
    /\ stdin w' = ["127.0.0.1 2222 22"; ""].
Proof.
  apply (empty_remote_ip_exits typed_no_ip "   " ["127.0.0.1 2222 22"; ""]);
    reflexivity.
Defined.

(** ** Runs, evaluated *)

Example strip_split_int :
  PyStr.strip "  127.0.0.1 2222 22 " = "127.0.0.1 2222 22"
  /\ PyStr.split "127.0.0.1   2222 22" = ["127.0.0.1"; "2222"; "22"]
  /\ PyStr.split "127.0.0.1 abc 22" = ["127.0.0.1"; "abc"; "22"]
  /\ PyStr.int "2222" = Some 2222
  /\ PyStr.int "+1_000" = Some 1000
  /\ PyStr.int "-7" = Some (-7)
  /\ PyStr.int "abc" = None
  /\ PyStr.int "22_" = None
  /\ PyStr.int "" = None.
Proof. vm_compute. conjuncts; reflexivity. Qed.

(** Two segments arrive, then the stream ends: both are written, then both
    sockets are closed. *)
Example pipe_relays_hello :
  let run := pipe 5%nat 6%nat (set_incoming [Segment hello; Segment hello] quiet) in
  fst run = Ret tt
  /\ trace (snd run) =
     [Sys (Recv 5%nat 65535) (RBytes hello);
      Sys (Sendall 6%nat hello) RNone;
      Sys (Recv 5%nat 65535) (RBytes hello);
      Sys (Sendall 6%nat hello) RNone;
      Sys (Recv 5%nat 65535) (RBytes []);
      Sys (Close 5%nat) RNone;
      Sys (Close 6%nat) RNone].
Proof. vm_compute. conjuncts; reflexivity. Qed.

(** The second write raises and so do both close() calls: the copy stops at
    the failed write, both close() calls are made, and [pipe] returns. *)
Example pipe_survives_failures :
  let run :=
    pipe 5%nat 6%nat
      (set_faults
         (fun o => match o with
                   | OpSendall => [None; Some "EPIPE"]
                   | OpClose => [Some "EIO"; Some "EBADF"]
                   | _ => []
                   end)
         (set_incoming [Segment hello; Segment hello; Segment hello] quiet)) in
  fst run = Ret tt
  /\ trace (snd run) =
     [Sys (Recv 5%nat 65535) (RBytes hello);
      Sys (Sendall 6%nat hello) RNone;
      Sys (Recv 5%nat 65535) (RBytes hello);
      Sys (Sendall 6%nat hello) (Raised (OSError "EPIPE"));
      Sys (Close 5%nat) (Raised (OSError "EIO"));
      Sys (Close 6%nat) (Raised (OSError "EBADF"))].
Proof. vm_compute. conjuncts; reflexivity. Qed.

(** The first dial is refused, the second succeeds: no thread for the first
    client, two for the second, and the listener waits for a third. *)
Example forwarder_after_refusal :
  let run := start_forwarder "127.0.0.1" 2222 "203.0.113.5" 22 knocks_dial_refused in
  fst run = Blocked
  /\ trace (snd run) =
     [Sys (Socket AF_INET SOCK_STREAM) (RSock 3%nat);
      Sys (Setsockopt 3%nat SOL_SOCKET SO_REUSEADDR 1) RNone;
      Sys (Bind 3%nat ("127.0.0.1", 2222)) RNone;
      Sys (Listen 3%nat 50) RNone;
      Print "[+] Forwarding 127.0.0.1:2222  --->  203.0.113.5:22";
      Sys (Accept 3%nat) (RConn 4%nat ("10.0.0.1", 5555));
      Print "[+] Incoming connection from ('10.0.0.1', 5555)";
      Sys (CreateConnection ("203.0.113.5", 22) 10) (Raised (OSError refused));
      Print "[!] Failed connecting to 203.0.113.5:22 - [Errno 111] Connection refused";
      Sys (Close 4%nat) RNone;
      Sys (Accept 3%nat) (RConn 5%nat ("10.0.0.2", 7777));
      Print "[+] Incoming connection from ('10.0.0.2', 7777)";
      Sys (CreateConnection ("203.0.113.5", 22) 10) (RSock 6%nat);
      Start (Pipe 5%nat 6%nat);
      Start (Pipe 6%nat 5%nat)].
Proof. vm_compute. conjuncts; reflexivity. Qed.

(** A session at the terminal: a bad port, a wrong count, a good mapping,
    the end of the input, then Ctrl+C during the second wait. *)
Example main_session :
  let run :=
    main (set_signals [false; true]
            (set_stdin ["203.0.113.5"; "127.0.0.1 abc 22"; "127.0.0.1 2222";
                        "127.0.0.1 2222 22"; " "] quiet)) in
  fst run = Ret tt
  /\ skipn 6 (trace (snd run)) =
     [Input ip_prompt (Some "203.0.113.5");
      Input mapping_prompt (Some "127.0.0.1 abc 22");
      Print "Port numbers must be integers.";
      Input mapping_prompt (Some "127.0.0.1 2222");
      Print "Format must be: local_ip local_port remote_port";
      Input mapping_prompt (Some "127.0.0.1 2222 22");
      Print "[+] Added: 127.0.0.1:2222 → 203.0.113.5:22";
      Input mapping_prompt (Some " ");
      Print (PyStr.nl ++ "[+] Starting all forwards..." ++ PyStr.nl);
      Start (Forwarder "127.0.0.1" 2222 "203.0.113.5" 22);
      Print ("[+] All mappings active. Press Ctrl+C to stop." ++ PyStr.nl);
      Wait 3600;
      Print (PyStr.nl ++ "[+] Stopping.")].
Proof. vm_compute. conjuncts; reflexivity. Qed.

(** ** More about the listener *)

(** The fresh handle after one round of the accept loop: one handle is
    used per client accepted, one more per dial that succeeds. *)
Lemma forward_round_handles listener remote_ip remote_port w :
  next_handle (snd (forward_round listener remote_ip remote_port tt w)) =
  match clients w with
  | Client _ :: _ =>
      match head_fault (faults w OpConnect) with
      | None => S (S (next_handle w))
      | Some _ => S (next_handle w)
      end
  | _ => next_handle w
  end.
Proof.
  unfold forward_round, bind, accept.
  destruct (clients w) as [|[peer|reason] q]; try reflexivity.
  unfold log, print, try_except, create_connection, syscall_sock, next_fault.
  simpl.
  destruct (faults w OpConnect) as [|[reason|] cq]; simpl; try reflexivity.
  unfold bind, close, syscall, next_fault. simpl.
  destruct (faults w OpClose) as [|[r|] xq]; reflexivity.
Qed.

(** The rounds of the accept loop form a [listener_run]. *)
Lemma forward_rounds_run listener remote_ip remote_port :
  forall fuel w,
    (List.length (clients w) < fuel)%nat ->
    exists evs r w',
      while_true fuel (forward_round listener remote_ip remote_port) tt w = (r, w')
      /\ trace w' = (trace w ++ evs)%list
      /\ listener_run listener remote_ip remote_port (next_handle w) evs r.
Proof.
  induction fuel as [|fuel IH]; intros w Hf; [lia|].
  rewrite while_true_S.
  pose proof (forward_round_cases listener remote_ip remote_port w) as C.
  pose proof (forward_round_handles listener remote_ip remote_port w) as H.
  destruct (clients w) as [|[peer|reason] q] eqn:E; simpl in Hf.
  - rewrite C. exists [], Blocked, w. rewrite app_nil_r.
    conjuncts; try reflexivity. constructor.
  - cbv zeta in C.
    destruct (head_fault (faults w OpConnect)) as [reason|].
    + destruct C as (w1 & Hr & Ht & Hq). rewrite Hr in H |- *. cbn [snd] in H.
      destruct (head_fault (faults w OpClose)) as [r|].
      * eexists _, _, w1. conjuncts; [reflexivity|exact Ht|].
        apply listener_close_raises.
      * destruct (IH w1) as (evs & r & w' & Hrun & Ht' & Hl);
          [rewrite Hq; lia|].
        rewrite Hrun. eexists _, r, w'. conjuncts; [reflexivity| |].
        -- rewrite Ht', Ht. rewrite <- app_assoc. reflexivity.
        -- rewrite H in Hl. apply listener_dial_fails. exact Hl.
    + destruct C as (w1 & Hr & Ht & Hq). rewrite Hr in H |- *. cbn [snd] in H.
      destruct (IH w1) as (evs & r & w' & Hrun & Ht' & Hl);
        [rewrite Hq; lia|].
      rewrite Hrun. eexists _, r, w'. conjuncts; [reflexivity| |].
      * rewrite Ht', Ht. rewrite <- app_assoc. reflexivity.
      * rewrite H in Hl. apply listener_relays. exact Hl.
  - destruct C as (w1 & Hr & Ht & Hq). rewrite Hr.
    eexists _, _, w1. conjuncts; [reflexivity|exact Ht|].
    apply listener_accept_raises.
Qed.


(** How a run of the accept loop may end: blocked in accept() or on an
    exception, never by returning. *)
Lemma listener_run_ends listener remote_ip remote_port h evs r :
  listener_run listener remote_ip remote_port h evs r ->
  r = Blocked \/ exists e, r = Raise e.
Proof. induction 1; eauto. Qed.

(** The whole of [start_forwarder]: either one of the calls of the setup
    raises, and nothing but setup calls were made, or the setup is followed
    by a run of the accept loop with the handles after the listener's. *)
Lemma start_forwarder_shape :
  forall local_ip local_port remote_ip remote_port w,
    exists evs r w',
      start_forwarder local_ip local_port remote_ip remote_port w = (r, w')
      /\ trace w' = (trace w ++ evs)%list
      /\ ((forallb is_setup evs = true /\ exists e, r = Raise e)
          \/ exists served,
               evs =
               ([Sys (Socket AF_INET SOCK_STREAM) (RSock (next_handle w));
                 Sys (Setsockopt (next_handle w) SOL_SOCKET SO_REUSEADDR 1) RNone;
                 Sys (Bind (next_handle w) (local_ip, local_port)) RNone;
                 Sys (Listen (next_handle w) 50) RNone;
                 Print (forwarding_line local_ip local_port remote_ip remote_port)]
                ++ served)%list
               /\ listener_run (next_handle w) remote_ip remote_port
                    (S (next_handle w)) served r).
Proof.
  intros local_ip local_port remote_ip remote_port w.
  unfold start_forwarder, bind, socket, syscall_sock, setsockopt, bind_to,
    listen, syscall, next_fault, log, print.
  cbn [snd].
  assert (forall W : world,
             trace W =
             (trace w ++
              [Sys (Socket AF_INET SOCK_STREAM) (RSock (next_handle w));
               Sys (Setsockopt (next_handle w) SOL_SOCKET SO_REUSEADDR 1) RNone;
               Sys (Bind (next_handle w) (local_ip, local_port)) RNone;
               Sys (Listen (next_handle w) 50) RNone;
               Print (forwarding_line local_ip local_port remote_ip remote_port)])%list ->
             next_handle W = S (next_handle w) ->
             exists evs r w',
               forward_loop (next_handle w) remote_ip remote_port W = (r, w')
               /\ trace w' = (trace w ++ evs)%list
               /\ ((forallb is_setup evs = true /\ exists e, r = Raise e)
                   \/ exists served,
                        evs =
                        ([Sys (Socket AF_INET SOCK_STREAM) (RSock (next_handle w));
                          Sys (Setsockopt (next_handle w) SOL_SOCKET SO_REUSEADDR 1) RNone;
                          Sys (Bind (next_handle w) (local_ip, local_port)) RNone;
                          Sys (Listen (next_handle w) 50) RNone;
                          Print (forwarding_line local_ip local_port remote_ip remote_port)]
                         ++ served)%list
                        /\ listener_run (next_handle w) remote_ip remote_port
                             (S (next_handle w)) served r)) as Hloop.
  { intros W HtW HnW.
    destruct (forward_rounds_run (next_handle w) remote_ip remote_port
                (S (List.length (clients W))) W ltac:(lia))
      as (served & r & w' & Hrun & Ht & Hl).
    fold (loop (fun w => List.length (clients w))
               (forward_round (next_handle w) remote_ip remote_port) tt W) in Hrun.
    fold (forward_loop (next_handle w) remote_ip remote_port W) in Hrun.
    eexists _, r, w'. conjuncts; [exact Hrun| |right; exists served; split;
                                               [reflexivity|]].
    - rewrite Ht, HtW, <- app_assoc. reflexivity.
    - rewrite HnW in Hl. exact Hl. }
  destruct (faults w OpSocket) as [|[?|] ?]; simpl;
    try (eexists [_], _, _; conjuncts; [reflexivity|simpl; trace_assoc|];
         left; split; [reflexivity|eauto]);
    (destruct (faults w OpSetsockopt) as [|[?|] ?]; simpl;
     try (eexists [_; _], _, _; conjuncts;
          [reflexivity|simpl; trace_assoc|];
          left; split; [reflexivity|eauto]));
    (destruct ((0 <=? local_port) && (local_port <=? 65535)); simpl;
     [|eexists [_; _; _], _, _; conjuncts;
       [reflexivity|simpl; trace_assoc|];
       left; split; [reflexivity|eauto]]);
    (destruct (faults w OpBind) as [|[?|] ?]; simpl;
     try (eexists [_; _; _], _, _; conjuncts;
          [reflexivity|simpl; trace_assoc|];
          left; split; [reflexivity|eauto]));
    (destruct (faults w OpListen) as [|[?|] ?]; simpl;
     try (eexists [_; _; _; _], _, _; conjuncts;
          [reflexivity|simpl; trace_assoc|];
          left; split; [reflexivity|eauto]));
    (apply Hloop; [simpl; trace_assoc|reflexivity]).
Qed.

(** X1.  When a client has been accepted and the dial succeeds, the round
    starts exactly two threads, [pipe] from the accepted socket to the
    dialed one and [pipe] the other way, closes nothing, and the accept loop
    goes on at once with the clients that follow, two handles further. *)
Theorem dial_success_starts_relay :
  forall listener remote_ip remote_port w peer rest,
    clients w = Client peer :: rest ->
    head_fault (faults w OpConnect) = None ->
    exists w',
      forward_loop listener remote_ip remote_port w
      = forward_loop listener remote_ip remote_port w'
      /\ trace w' =
         (trace w ++
          [Sys (Accept listener) (RConn (next_handle w) peer);
           Print (incoming_line peer);
           Sys (CreateConnection (remote_ip, remote_port) 10)
               (RSock (S (next_handle w)));
           Start (Pipe (next_handle w) (S (next_handle w)));
           Start (Pipe (S (next_handle w)) (next_handle w))])%list
      /\ clients w' = rest
      /\ next_handle w' = S (S (next_handle w)).
Proof.
  intros listener remote_ip remote_port w peer rest Hc Hd.
  pose proof (forward_round_cases listener remote_ip remote_port w) as C.
  pose proof (forward_round_handles listener remote_ip remote_port w) as H.
  rewrite Hc, Hd in C, H. cbv zeta in C. destruct C as (w' & Hr & Ht & Hq).
  rewrite Hr in H. cbn [snd] in H.
  exists w'. conjuncts; try assumption.
  rewrite (forward_loop_unfold listener remote_ip remote_port w), Hr.
  reflexivity.
Qed.

Lemma dial_success_starts_relay_witness :
  exists w',
    forward_loop 3%nat "203.0.113.5" 22
      (set_clients [Client ("10.0.0.1", 5555); Client ("10.0.0.2", 7777)]
         (set_next_handle 4%nat quiet))
    = forward_loop 3%nat "203.0.113.5" 22 w'
    /\ trace w' =
       [Sys (Accept 3%nat) (RConn 4%nat ("10.0.0.1", 5555));
        Print "[+] Incoming connection from ('10.0.0.1', 5555)";
        Sys (CreateConnection ("203.0.113.5", 22) 10) (RSock 5%nat);
        Start (Pipe 4%nat 5%nat);
        Start (Pipe 5%nat 4%nat)]
    /\ clients w' = [Client ("10.0.0.2", 7777)]
    /\ next_handle w' = 6%nat.
Proof.
  apply (dial_success_starts_relay 3%nat "203.0.113.5" 22
           (set_clients [Client ("10.0.0.1", 5555); Client ("10.0.0.2", 7777)]
              (set_next_handle 4%nat quiet))
           ("10.0.0.1", 5555) [Client ("10.0.0.2", 7777)]);
    reflexivity.
Defined.

(** X3.  [start_forwarder] never returns: whatever the environment answers,
    it ends blocked in accept() or on an exception. *)
Theorem start_forwarder_never_returns :
  forall local_ip local_port remote_ip remote_port w,
    fst (start_forwarder local_ip local_port remote_ip remote_port w) = Blocked
    \/ exists e,
         fst (start_forwarder local_ip local_port remote_ip remote_port w)
         = Raise e.
Proof.
  intros local_ip local_port remote_ip remote_port w.
  destruct (start_forwarder_shape local_ip local_port remote_ip remote_port w)
    as (evs & r & w' & Hrun & _ & [[_ He]|(served & _ & Hl)]);
    rewrite Hrun; cbn [fst].
  - right. exact He.
  - exact (listener_run_ends _ _ _ _ _ _ Hl).
Qed.

(** In a run of the accept loop from fresh handle [h], the sockets closed
    and the sockets handed to relays all have handles from [h] on. *)
Lemma listener_run_fresh listener remote_ip remote_port h evs r :
  listener_run listener remote_ip remote_port h evs r ->
  forall s,
    (is_closed s evs = true -> (h <= s)%nat)
    /\ (In s (relayed evs) -> (h <= s)%nat).
Proof.
  induction 1 as [h|h reason|h peer evs r Hrun IH|h peer reason evs r Hrun IH
                 |h peer reason reason']; intros s; simpl.
  - split; [discriminate|tauto].
  - split; [discriminate|tauto].
  - destruct (IH s) as [Hc Hr]. split.
    + intros H. apply Hc in H. lia.
    + intros H.
      repeat (destruct H as [<-|H]; [lia|]).
      apply Hr in H. lia.
  - destruct (IH s) as [Hc Hr]. split.
    + destruct (Nat.eqb_spec s h) as [->|Hne]; simpl; [lia|].
      intros H. apply Hc in H. lia.
    + intros H. apply Hr in H. lia.
  - split; [|tauto].
    destruct (Nat.eqb_spec s h) as [->|Hne]; simpl; [lia|discriminate].
Qed.

(** In a run of the accept loop, no socket handed to a relay is closed. *)
Lemma listener_run_relays_open listener remote_ip remote_port h evs r :
  listener_run listener remote_ip remote_port h evs r ->
  forall s, In s (relayed evs) -> is_closed s evs = false.
Proof.
  induction 1 as [h|h reason|h peer evs r Hrun IH|h peer reason evs r Hrun IH
                 |h peer reason reason']; intros s; simpl; try tauto.
  - intros Hin.
    destruct (is_closed s evs) eqn:Hcl; [|reflexivity].
    repeat (destruct Hin as [<-|Hin];
            [apply (listener_run_fresh _ _ _ _ _ _ Hrun) in Hcl; lia|]).
    rewrite (IH s Hin) in Hcl. discriminate.
  - intros Hin. rewrite (IH s Hin).
    apply (listener_run_fresh _ _ _ _ _ _ Hrun) in Hin.
    destruct (Nat.eqb_spec s h) as [->|Hne]; [lia|reflexivity].
Qed.

Lemma setup_closes_nothing evs :
  forallb is_setup evs = true ->
  forall s, is_closed s evs = false /\ relayed evs = [].
Proof.
  induction evs as [|e evs IH]; intros H s; simpl in *; [auto|].
  apply andb_true_iff in H. destruct H as [He H].
  destruct (IH H s) as [Hc Hr].
  destruct e as [[]| | | | |]; simpl in *; try discriminate; auto.
Qed.

Lemma setup_dials_nothing evs :
  forallb is_setup evs = true ->
  forall last, closed_sockets evs = [] /\ failed_dials last evs = [].
Proof.
  induction evs as [|e evs IH]; intros H last; simpl in *; [auto|].
  apply andb_true_iff in H. destruct H as [He H].
  destruct (IH H last) as [Hc Hf].
  destruct e as [[]| | | | |]; simpl in *; try discriminate; auto.
Qed.

(** In a run of the accept loop, the sockets closed are the accepted
    sockets whose dial failed, in order, each closed once. *)
Lemma listener_run_closes listener remote_ip remote_port h evs r :
  listener_run listener remote_ip remote_port h evs r ->
  closed_sockets evs = failed_dials None evs.
Proof.
  induction 1 as [h|h reason|h peer evs r Hrun IH|h peer reason evs r Hrun IH
                 |h peer reason reason']; simpl; try reflexivity.
  - exact IH.
  - rewrite IH. reflexivity.
Qed.

(** X4.  The sockets [start_forwarder] closes are exactly the accepted
    sockets whose dial failed, each closed once and in the order of the
    failures.  So it never closes its listening socket, and never closes a
    socket it has handed to a relay. *)
Theorem start_forwarder_closes_only_failed_dials :
  forall local_ip local_port remote_ip remote_port w,
    exists evs r w',
      start_forwarder local_ip local_port remote_ip remote_port w = (r, w')
      /\ trace w' = (trace w ++ evs)%list
      /\ closed_sockets evs = failed_dials None evs
      /\ is_closed (next_handle w) evs = false
      /\ forall s, In s (relayed evs) -> is_closed s evs = false.
Proof.
  intros local_ip local_port remote_ip remote_port w.
  destruct (start_forwarder_shape local_ip local_port remote_ip remote_port w)
    as (evs & r & w' & Hrun & Ht & [[Hs _]|(served & -> & Hl)]).
  - exists evs, r, w'. conjuncts; try assumption.
    + destruct (setup_dials_nothing evs Hs None) as [-> ->]. reflexivity.
    + apply (setup_closes_nothing evs Hs).
    + intros s Hin.
      destruct (setup_closes_nothing evs Hs s) as [_ Hr].
      rewrite Hr in Hin. destruct Hin.
  - eexists _, r, w'. conjuncts; [exact Hrun|exact Ht| | |].
    + simpl. apply (listener_run_closes _ _ _ _ _ _ Hl).
    + simpl. destruct (is_closed (next_handle w) served) eqn:Hcl; [|reflexivity].
      apply (listener_run_fresh _ _ _ _ _ _ Hl) in Hcl. lia.
    + intros s Hin. simpl in Hin |- *.
      apply (listener_run_relays_open _ _ _ _ _ _ Hl). exact Hin.
Qed.

(** ** More about the relay *)

Lemma chunks_written_app tr1 tr2 :
  chunks_written (tr1 ++ tr2) = (chunks_written tr1 ++ chunks_written tr2)%list.
Proof.
  induction tr1 as [|e tr1 IH]; simpl; [reflexivity|].
  destruct e as [[] r| | | | |]; simpl; rewrite ?IH; reflexivity.
Qed.

Lemma bytes_written_app tr1 tr2 :
  bytes_written (tr1 ++ tr2) = (bytes_written tr1 ++ bytes_written tr2)%list.
Proof.
  unfold bytes_written. rewrite chunks_written_app, map_app, concat_app.
  reflexivity.
Qed.

(** With no write failing, the copy loop writes all that arrives. *)
Lemma copy_rounds_complete :
  forall fuel src dst w,
    never_fails OpSendall w ->
    (stream_size (incoming w) < fuel)%nat ->
    bytes_written (trace (snd (while_true fuel (pipe_round src dst) tt w)))
    = (bytes_written (trace w) ++ arrived (incoming w))%list.
Proof.
  induction fuel as [|fuel IH]; intros src dst w Hok Hf; [lia|].
  rewrite while_true_S. unfold pipe_round at 1, bind, recv.
  unfold never_fails in Hok.
  destruct (incoming w) as [|[d|reason] q] eqn:E.
  - simpl. rewrite bytes_written_app. reflexivity.
  - destruct (is_nil (take BUFFER_SIZE d)) eqn:En.
    + simpl. apply is_nil_true in En.
      destruct d as [|b d]; [|simpl in En; discriminate].
      rewrite bytes_written_app. reflexivity.
    + pose proof (stream_shrinks d q En) as Hsize.
      rewrite (arrived_step d q En).
      unfold sendall, syscall, next_fault. simpl.
      destruct (faults w OpSendall) as [|[reason|] fq] eqn:Ef; simpl.
      * rewrite IH.
        -- simpl. rewrite !bytes_written_app. unfold bytes_written at 2 3.
           simpl. rewrite app_nil_r, <- !app_assoc. reflexivity.
        -- unfold never_fails. simpl. rewrite Ef. constructor.
        -- simpl. simpl in Hf, Hsize. lia.
      * inversion Hok. discriminate.
      * rewrite IH.
        -- simpl. rewrite !bytes_written_app. unfold bytes_written at 2 3.
           simpl. rewrite app_nil_r, <- !app_assoc. reflexivity.
        -- unfold never_fails. simpl. inversion Hok. assumption.
        -- simpl. simpl in Hf, Hsize. lia.
  - simpl. rewrite bytes_written_app. reflexivity.
Qed.

(** What the bare [except] of the copy leaves of the world is what the loop
    left. *)
Lemma pipe_copy_world src dst w :
  snd (pipe_copy src dst w)
  = snd (loop (fun w => stream_size (incoming w)) (pipe_round src dst) tt w).
Proof.
  unfold pipe_copy, try_except.
  destruct (loop _ _ tt w) as [[[]|e| |] w']; reflexivity.
Qed.

(** X5.  When no write fails, [pipe] passes to sendall, in order and
    without a gap, every byte that arrives on the source before the stream
    ends or a read fails, a segment longer than the buffer going out in
    several writes. *)
Theorem pipe_delivers_all_that_arrives :
  forall src dst w,
    never_fails OpSendall w ->
    bytes_written (trace (snd (pipe src dst w)))
    = (bytes_written (trace w) ++ arrived (incoming w))%list.
Proof.
  intros src dst w Hok.
  pose proof (copy_rounds_complete (S (stream_size (incoming w))) src dst w Hok
                ltac:(lia)) as Hcopy.
  pose proof (pipe_copy_world src dst w) as Hw. unfold loop in Hw.
  rewrite <- Hw in Hcopy.
  unfold pipe, try_finally.
  destruct (pipe_copy_run src dst w) as (io & r & w1 & Hrun & _).
  rewrite Hrun in Hcopy |- *. cbn [snd] in Hcopy.
  destruct (pipe_cleanup_run src dst w1) as (w2 & Hclean & Ht2).
  unfold bind. rewrite Hclean. simpl.
  rewrite Ht2, bytes_written_app, Hcopy. unfold bytes_written at 3. simpl.
  rewrite app_nil_r. reflexivity.
Qed.

Lemma pipe_delivers_all_that_arrives_witness :
  bytes_written
    (trace (snd (pipe 5%nat 6%nat
                   (set_incoming [Segment hello; Segment hello; RecvFails "ECONNRESET"]
                      quiet))))
  = (hello ++ hello)%list.
Proof.
  apply (pipe_delivers_all_that_arrives 5%nat 6%nat
           (set_incoming [Segment hello; Segment hello; RecvFails "ECONNRESET"]
              quiet)).
  constructor.
Defined.

Lemma copy_run_calls src dst io r :
  copy_run src dst io r -> forallb (is_pipe_call src dst) io = true.
Proof.
  induction 1; simpl; rewrite ?Nat.eqb_refl; auto.
Qed.

(** X6.  [pipe] touches nothing but its two sockets: every event it adds to
    the trace is a recv on the source, a sendall on the destination or a
    close of one of the two; it prints nothing and starts no thread. *)
Theorem pipe_only_uses_its_sockets :
  forall src dst w,
    exists evs,
      trace (snd (pipe src dst w)) = (trace w ++ evs)%list
      /\ forallb (is_pipe_call src dst) evs = true.
Proof.
  intros src dst w.
  destruct (pipe_run src dst w) as (io & r & w' & Hrun & Hio & Ht & _).
  rewrite Hrun. cbn [snd]. eexists. split; [exact Ht|].
  rewrite forallb_app, (copy_run_calls _ _ _ _ Hio). simpl.
  rewrite !Nat.eqb_refl. simpl. rewrite orb_true_r. reflexivity.
Qed.

(** ** More about the terminal *)

Lemma started_app tr1 tr2 :
  started (tr1 ++ tr2) = (started tr1 ++ started tr2)%list.
Proof.
  induction tr1 as [|e tr1 IH]; simpl; [reflexivity|].
  destruct e; simpl; rewrite ?IH; reflexivity.
Qed.

Lemma started_none tr : forallb not_start tr = true -> started tr = [].
Proof.
  induction tr as [|e tr IH]; simpl; [reflexivity|].
  intros H. apply andb_true_iff in H. destruct H as [He H].
  destruct e; simpl in *; try discriminate; auto.
Qed.

Lemma console_starts_nothing tr : forallb is_console tr = true -> started tr = [].
Proof.
  induction tr as [|e tr IH]; simpl; [reflexivity|].
  intros H. apply andb_true_iff in H. destruct H as [He H].
  destruct e; simpl in *; try discriminate; auto.
Qed.

Lemma started_threads ms :
  started (map (fun m => Start (forwarder_of m)) ms) = map forwarder_of ms.
Proof. induction ms as [|m ms IH]; simpl; [|rewrite IH]; reflexivity. Qed.

(** Every mapping collected has the remote address it was collected for. *)
Lemma collect_remote remote_ip lines :
  Forall (fun m => remote_of m = remote_ip) (collect remote_ip lines).
Proof.
  induction lines as [|line lines IH]; simpl; [constructor|].
  unfold parse_mapping.
  destruct (PyStr.split (PyStr.strip line)) as [|a [|p [|q [|x l]]]]; try exact IH.
  destruct (PyStr.int p); [|exact IH].
  destruct (PyStr.int q); [|exact IH].
  constructor; [reflexivity|exact IH].
Qed.

(** The input loop over non-blank lines followed by a blank one. *)
Lemma read_loop_collects remote_ip :
  forall lines blank rest mappings w,
    stdin w = (lines ++ blank :: rest)%list ->
    Forall (fun line => is_blank line = false) lines ->
    is_blank blank = true ->
    exists w',
      read_mappings_from remote_ip mappings w
      = (Ret (mappings ++ collect remote_ip lines)%list, w')
      /\ stdin w' = rest.
Proof.
  intros lines blank rest mappings w Hin Hlines Hblank.
  revert mappings w Hin.
  induction Hlines as [|line lines Hline Hlines IH]; intros mappings w Hin;
    rewrite read_mappings_unfold;
    pose proof (read_mapping_cases remote_ip mappings w) as C;
    rewrite Hin in C; cbn [app] in C; cbv zeta in C.
  - unfold is_blank in Hblank. rewrite Hblank in C. rewrite C.
    eexists. split; [rewrite app_nil_r; reflexivity|reflexivity].
  - unfold is_blank in Hline. rewrite Hline in C.
    cbn [collect]. unfold parse_mapping.
    destruct (PyStr.split (PyStr.strip line)) as [|a [|p [|q [|x l]]]];
      try (rewrite C; apply IH; reflexivity).
    destruct (PyStr.int p) as [lp|]; [destruct (PyStr.int q) as [rp|]|];
      rewrite C; try (apply IH; reflexivity).
    destruct (IH (mappings ++ [(a, lp, remote_ip, rp)])%list
                (emit (Print ("[+] Added: " ++ a ++ ":" ++ PyStr.str lp ++ " → "
                              ++ remote_ip ++ ":" ++ PyStr.str rp))
                   (emit (Input mapping_prompt (Some line))
                      (set_stdin (lines ++ blank :: rest)%list w))) eq_refl)
      as (w' & Hrun & Hrest).
    exists w'. rewrite Hrun, <- app_assoc. auto.
Qed.

(** X7.  When the operator types lines none of which is blank, then a
    blank one, the input loop returns the list it started with followed by
    one mapping per well-formed line, in the order typed and all with the
    one remote address; the malformed lines add nothing, and the lines after
    the blank one are left unread. *)
Theorem read_mappings_collects :
  forall remote_ip lines blank rest mappings w,
    stdin w = (lines ++ blank :: rest)%list ->
    Forall (fun line => is_blank line = false) lines ->
    is_blank blank = true ->
    exists w',
      read_mappings_from remote_ip mappings w
      = (Ret (mappings ++ collect remote_ip lines)%list, w')
      /\ stdin w' = rest
      /\ Forall (fun m => remote_of m = remote_ip) (collect remote_ip lines).
Proof.
  intros remote_ip lines blank rest mappings w Hin Hlines Hblank.
  destruct (read_loop_collects remote_ip lines blank rest mappings w
              Hin Hlines Hblank) as (w' & Hrun & Hrest).
  exists w'. conjuncts; auto using collect_remote.
Qed.

Lemma read_mappings_collects_witness :
  exists w',
    read_mappings_from "203.0.113.5" [] typed_bad_port
    = (Ret ([] ++ collect "203.0.113.5" ["127.0.0.1 abc 22"; "127.0.0.1 2222 22"])%list,
       w')
    /\ stdin w' = []
    /\ Forall (fun m => remote_of m = "203.0.113.5")
              (collect "203.0.113.5" ["127.0.0.1 abc 22"; "127.0.0.1 2222 22"]).
Proof.
  apply (read_mappings_collects "203.0.113.5"
           ["127.0.0.1 abc 22"; "127.0.0.1 2222 22"] "" [] [] typed_bad_port).
  - reflexivity.
  - repeat constructor.
  - reflexivity.
Defined.

(** When the input ends with no blank line typed, the input loop ends on
    EOFError. *)
Lemma read_mappings_exhausted remote_ip :
  forall lines mappings w,
    stdin w = lines ->
    Forall (fun line => is_blank line = false) lines ->
    exists w', read_mappings_from remote_ip mappings w = (Raise EOFError, w').
Proof.
  induction lines as [|line lines IH]; intros mappings w Hin Hlines;
    rewrite read_mappings_unfold;
    pose proof (read_mapping_cases remote_ip mappings w) as C;
    rewrite Hin in C; cbv zeta in C.
  - rewrite C. eexists. reflexivity.
  - inversion Hlines as [|? ? Hline Hrest]; subst.
    unfold is_blank in Hline. rewrite Hline in C.
    destruct (PyStr.split (PyStr.strip line)) as [|a [|p [|q [|x l]]]];
      try (rewrite C; apply IH; [reflexivity|assumption]).
    destruct (PyStr.int p) as [lp|]; [destruct (PyStr.int q) as [rp|]|];
      rewrite C; apply IH; try reflexivity; assumption.
Qed.

(** X8.  When the input ends before a blank line is typed at the mapping
    prompt -- or before anything is typed at all -- [main] ends on the
    EOFError of input(), which it does not catch, and starts no thread,
    whatever mappings it had read. *)
Theorem main_dies_at_end_of_input :
  forall w,
    Forall (fun line => is_blank line = false) (stdin w) ->
    exists w',
      main w = (Raise EOFError, w')
      /\ started (trace w') = started (trace w).
Proof.
  intros w Hlines.
  destruct (for_each_print banner w) as (wb & Hb & Htb & Hsb).
  unfold main, bind. rewrite Hb. unfold input at 1. rewrite Hsb.
  destruct (stdin w) as [|line lines] eqn:Hin.
  - eexists. split; [reflexivity|].
    rewrite trace_emit, Htb, !started_app.
    rewrite (console_starts_nothing _ (console_prints banner)). simpl.
    rewrite !app_nil_r. reflexivity.
  - inversion Hlines as [|? ? Hline Hrest]; subst.
    unfold is_blank in Hline. rewrite Hline.
    set (w0 := emit (Input ip_prompt (Some line)) (set_stdin lines wb)).
    destruct (read_mappings_exhausted (PyStr.strip line) lines [] w0 eq_refl Hrest)
      as (w' & Hrun).
    destruct (read_mappings_asks_first (PyStr.strip line) [] w0)
      as (answer & evs & Ht & Hc).
    unfold read_mappings. rewrite Hrun in Ht |- *. cbn [snd] in Ht.
    exists w'. split; [reflexivity|].
    rewrite Ht. subst w0. rewrite trace_emit. cbn [trace set_stdin].
    rewrite Htb, !started_app.
    rewrite (console_starts_nothing _ (console_prints banner)).
    cbn [started]. rewrite (console_starts_nothing _ Hc).
    rewrite !app_nil_r. reflexivity.
Qed.

Lemma main_dies_at_end_of_input_witness :
  exists w',
    main (set_stdin ["203.0.113.5"; "127.0.0.1 2222 22"] quiet)
    = (Raise EOFError, w')
    /\ started (trace w') = [].
Proof.
  apply (main_dies_at_end_of_input
           (set_stdin ["203.0.113.5"; "127.0.0.1 2222 22"] quiet)).
  repeat constructor.
Defined.

(** Starting the threads of the mappings leaves the signals to come alone. *)
Lemma for_each_start_signals mappings (f : mapping -> M unit) :
  (forall m w, f m w = start_thread (forwarder_of m) w) ->
  forall w, signals (snd (for_each mappings f w)) = signals w.
Proof.
  intros Hf. induction mappings as [|m ms IH]; intros w; simpl; [reflexivity|].
  unfold bind. rewrite Hf. unfold start_thread at 1. rewrite IH. reflexivity.
Qed.

Lemma keep_alive_shrinks :
  forall (s : unit) w s' w',
    (wait 3600 ;; ret (Continue tt)) w = (Ret (Continue s'), w') ->
    (List.length (signals w') < List.length (signals w))%nat.
Proof.
  intros s w s' w'. unfold bind, wait, ret.
  destruct (signals w) as [|[|] q]; try discriminate.
  intros H. injection H as _ <-. simpl. lia.
Qed.

(** The keep-alive loop, one wait at a time. *)
Lemma keep_alive_unfold w :
  keep_alive w =
  match signals w with
  | [] => (Blocked, w)
  | true :: q => (Raise KeyboardInterrupt, set_signals q w)
  | false :: q => keep_alive (emit (Wait 3600) (set_signals q w))
  end.
Proof.
  unfold keep_alive. rewrite loop_unfold; [|exact keep_alive_shrinks].
  unfold bind, wait, ret. destruct (signals w) as [|[|] q]; reflexivity.
Qed.

(** The waits that elapse before anything else happens. *)
Lemma keep_alive_waits :
  forall n later w,
    signals w = (repeat false n ++ later)%list ->
    exists w',
      keep_alive w = keep_alive w'
      /\ trace w' = (trace w ++ repeat (Wait 3600) n)%list
      /\ signals w' = later.
Proof.
  induction n as [|n IH]; intros later w Hs.
  - exists w. rewrite app_nil_r. auto.
  - rewrite (keep_alive_unfold w), Hs. cbn [repeat app].
    destruct (IH later (emit (Wait 3600) (set_signals (repeat false n ++ later) w))
                eq_refl) as (w' & Hrun & Ht & Hl).
    exists w'. conjuncts; [exact Hrun| |exact Hl].
    rewrite Ht, trace_emit. cbn [trace set_signals]. trace_assoc.
Qed.

(** [main] from the first thread on, up to the keep-alive loop. *)
Lemma start_all_reaches_keep_alive mappings w :
  mappings <> [] ->
  exists w1,
    start_all mappings w
    = try_except keep_alive is_KeyboardInterrupt
        (fun _ => print (PyStr.nl ++ "[+] Stopping.")) w1
    /\ trace w1 =
       (trace w
        ++ Print (PyStr.nl ++ "[+] Starting all forwards..." ++ PyStr.nl)
        :: map (fun m => Start (forwarder_of m)) mappings
        ++ [Print ("[+] All mappings active. Press Ctrl+C to stop." ++ PyStr.nl)])%list
    /\ signals w1 = signals w.
Proof.
  intros Hne. unfold start_all.
  destruct mappings as [|m ms]; [congruence|].
  cbv beta iota delta [is_nil]. unfold bind at 1, print at 1.
  set (w1 := emit _ w).
  unfold bind at 1.
  match goal with
  | |- context [for_each (m :: ms) ?f w1] =>
      pose proof (for_each_start_signals (m :: ms) f
                    ltac:(intros [[[? ?] ?] ?] ?; reflexivity) w1) as Hsig;
      destruct (for_each_start (m :: ms) f) with (w := w1) as (w2 & Hr & Ht);
        [intros [[[? ?] ?] ?] ?; reflexivity|]
  end.
  rewrite Hr in Hsig |- *. cbn [snd] in Hsig.
  unfold bind at 1, print at 1.
  eexists. conjuncts; [reflexivity| |].
  - rewrite trace_emit, Ht. subst w1. rewrite trace_emit. trace_assoc.
  - cbn [signals emit]. rewrite Hsig. reflexivity.
Qed.

(** X9.  Once the threads are started, [main] waits an hour at a time;
    when Ctrl+C arrives during a wait, after [n] waits that elapsed, it
    prints that it stops and returns normally.  Its trace from the first
    thread on: the line, one thread per mapping in order, the line, the [n]
    waits, the last line. *)
Theorem ctrl_c_ends_main :
  forall mappings n later w,
    mappings <> [] ->
    signals w = (repeat false n ++ true :: later)%list ->
    exists w',
      start_all mappings w = (Ret tt, w')
      /\ trace w' =
         (trace w
          ++ Print (PyStr.nl ++ "[+] Starting all forwards..." ++ PyStr.nl)
          :: map (fun m => Start (forwarder_of m)) mappings
          ++ Print ("[+] All mappings active. Press Ctrl+C to stop." ++ PyStr.nl)
          :: repeat (Wait 3600) n
          ++ [Print (PyStr.nl ++ "[+] Stopping.")])%list.
Proof.
  intros mappings n later w Hne Hs.
  destruct (start_all_reaches_keep_alive mappings w Hne) as (w1 & Hrun & Ht & Hsig).
  rewrite Hs in Hsig.
  destruct (keep_alive_waits n (true :: later) w1 Hsig) as (w2 & Hk & Ht2 & Hl).
  rewrite Hrun. unfold try_except. rewrite Hk, (keep_alive_unfold w2), Hl.
  cbn [is_KeyboardInterrupt]. unfold print.
  eexists. split; [reflexivity|].
  rewrite trace_emit. cbn [trace set_signals]. rewrite Ht2, Ht. trace_assoc.
Qed.

Lemma ctrl_c_ends_main_witness :
  exists w',
    start_all [("127.0.0.1", 2222, "203.0.113.5", 22)]
      (set_signals [false; false; true] quiet)
    = (Ret tt, w')
    /\ trace w' =
       [Print (PyStr.nl ++ "[+] Starting all forwards..." ++ PyStr.nl);
        Start (Forwarder "127.0.0.1" 2222 "203.0.113.5" 22);
        Print ("[+] All mappings active. Press Ctrl+C to stop." ++ PyStr.nl);
        Wait 3600; Wait 3600;
        Print (PyStr.nl ++ "[+] Stopping.")].
Proof.
  apply (ctrl_c_ends_main [("127.0.0.1", 2222, "203.0.113.5", 22)] 2 []
           (set_signals [false; false; true] quiet)).
  - discriminate.
  - reflexivity.
Defined.

Lemma all_false_repeat l :
  Forall (fun b => b = false) l -> l = repeat false (List.length l).
Proof.
  induction 1 as [|b l Hb Hl IH]; simpl; [reflexivity|].
  rewrite Hb, <- IH. reflexivity.
Qed.

(** X10.  Without Ctrl+C, [main] does not return once it has mappings: it
    has started its threads and stays in the keep-alive loop. *)
Theorem main_idles_without_ctrl_c :
  forall mappings w,
    mappings <> [] ->
    Forall (fun b => b = false) (signals w) ->
    fst (start_all mappings w) = Blocked
    /\ started (trace (snd (start_all mappings w)))
       = (started (trace w) ++ map forwarder_of mappings)%list.
Proof.
  intros mappings w Hne Hs.
  destruct (start_all_reaches_keep_alive mappings w Hne) as (w1 & Hrun & Ht & Hsig).
  apply all_false_repeat in Hs. rewrite <- Hsig in Hs.
  rewrite <- (app_nil_r (repeat _ _)) in Hs.
  destruct (keep_alive_waits _ [] w1 Hs) as (w2 & Hk & Ht2 & Hl).
  rewrite Hrun. unfold try_except. rewrite Hk, (keep_alive_unfold w2), Hl.
  cbn [fst snd]. split; [reflexivity|].
  rewrite Ht2, Ht, !started_app. cbn [started]. rewrite started_app.
  rewrite started_threads. cbn [started].
  rewrite (started_none (repeat (Wait 3600) _)).
  - rewrite !app_nil_r. reflexivity.
  - clear. induction (List.length (signals w1)); simpl; auto.
Qed.

Lemma main_idles_without_ctrl_c_witness :
  fst (start_all [("127.0.0.1", 2222, "203.0.113.5", 22)]
         (set_signals [false; false] quiet)) = Blocked
  /\ started (trace (snd (start_all [("127.0.0.1", 2222, "203.0.113.5", 22)]
                            (set_signals [false; false] quiet))))
     = [Forwarder "127.0.0.1" 2222 "203.0.113.5" 22].
Proof.
  apply (main_idles_without_ctrl_c [("127.0.0.1", 2222, "203.0.113.5", 22)]
           (set_signals [false; false] quiet)).
  - discriminate.
  - repeat constructor.
Defined.

(** X11.  For a session at the terminal -- the remote address, lines none of
    which is blank, then a blank line -- the threads [main] starts are one
    listener per well-formed line, in the order typed, each with the local
    address and the two ports of its line and the remote address typed
    first, stripped; and no other thread. *)
Theorem main_starts_one_listener_per_entry :
  forall w ip lines blank rest,
    stdin w = ip :: (lines ++ blank :: rest)%list ->
    is_blank ip = false ->
    Forall (fun line => is_blank line = false) lines ->
    is_blank blank = true ->
    started (trace (snd (main w)))
    = (started (trace w)
       ++ map forwarder_of (collect (PyStr.strip ip) lines))%list.
Proof.
  intros w ip lines blank rest Hin Hip Hlines Hblank.
  destruct (for_each_print banner w) as (wb & Hb & Htb & Hsb).
  unfold main, bind. rewrite Hb. unfold input at 1. rewrite Hsb, Hin.
  unfold is_blank in Hip. rewrite Hip.
  set (w0 := emit (Input ip_prompt (Some ip))
               (set_stdin (lines ++ blank :: rest)%list wb)).
  destruct (read_loop_collects (PyStr.strip ip) lines blank rest [] w0
              eq_refl Hlines Hblank) as (w1 & Hrun & _).
  destruct (read_mappings_asks_first (PyStr.strip ip) [] w0)
    as (answer & evs & Ht & Hc).
  unfold read_mappings. rewrite Hrun in Ht |- *. cbn [snd app] in Ht |- *.
  assert (started (trace w1) = started (trace w)) as H1.
  { rewrite Ht. subst w0. rewrite trace_emit. cbn [trace set_stdin].
    rewrite Htb, !started_app.
    rewrite (console_starts_nothing _ (console_prints banner)).
    cbn [started]. rewrite (console_starts_nothing _ Hc).
    rewrite !app_nil_r. reflexivity. }
  destruct (collect (PyStr.strip ip) lines) as [|m ms] eqn:Hms.
  - unfold start_all, print. cbn [is_nil snd map].
    rewrite trace_emit, started_app, H1. reflexivity.
  - destruct (start_all_threads (m :: ms) w1 ltac:(discriminate))
      as (tail & Hta & Hns).
    rewrite Hta, !started_app. cbn [started]. rewrite started_app.
    rewrite started_threads. cbn [started]. rewrite (started_none _ Hns), H1.
    rewrite !app_nil_r. reflexivity.
Qed.

Lemma main_starts_one_listener_per_entry_witness :
  started
    (trace (snd (main (set_stdin [" 203.0.113.5 "; "127.0.0.1 abc 22";
                                  "127.0.0.1 2222 22"; "0.0.0.0 8080 80"; "";
                                  "10.0.0.1 1 2"] quiet))))
  = [Forwarder "127.0.0.1" 2222 "203.0.113.5" 22;
     Forwarder "0.0.0.0" 8080 "203.0.113.5" 80].
Proof.
  apply (main_starts_one_listener_per_entry
           (set_stdin [" 203.0.113.5 "; "127.0.0.1 abc 22";
                       "127.0.0.1 2222 22"; "0.0.0.0 8080 80"; "";
                       "10.0.0.1 1 2"] quiet)
           " 203.0.113.5 "
           ["127.0.0.1 abc 22"; "127.0.0.1 2222 22"; "0.0.0.0 8080 80"]
           "" ["10.0.0.1 1 2"]).
  - reflexivity.
  - reflexivity.
  - repeat constructor.
  - reflexivity.
Defined.
